(** * objfile/scanner.go: wildcard byte-pattern scanner and module-data resolvers

    A shallow embedding of [getPatternSize], [getBits], [findPattern] and
    [findModuleInitPCHeader], with the three static signatures.

    Conventions of the embedding.
    - A Go [byte] is a [Byte.byte]; its numeric value is [bv b : Z].  Byte
      arithmetic ([-], [+], [<<]) is written with its wrap-around modulo 256.
    - A [uint64] is a [Z] reduced by [uint64]; an [int64] by [int64].
    - A Go slice is a [list byte] whose capacity equals its length, so every
      re-slice beyond the length is a fault.
    - A run-time panic (index or slice out of range) is [None] in the
      [option] monad; a normal return is [Some]. *)

From Stdlib Require Import Strings.Byte Strings.String.
From Stdlib Require Import ZArith NArith List Bool Lia Sorted.
Import ListNotations.
Local Open Scope Z_scope.

(** ** The panic monad *)

Module Panic.

Definition bind {A B} (m : option A) (k : A -> option B) : option B :=
  match m with
  | Some a => k a
  | None => None
  end.

End Panic.

Notation "x <- m ;; k" := (Panic.bind m (fun x => k))
  (at level 61, m at next level, right associativity).

(** ** Machine integers *)

Module Go.

Definition bv (b : byte) : Z := Z.of_N (Byte.to_N b).

Definition uint8 (z : Z) : Z := z mod 2 ^ 8.
Definition uint64 (z : Z) : Z := z mod 2 ^ 64.

(** [int16(x)] and [int64(x)]: reinterpretation in two's complement. *)
Definition int16 (z : Z) : Z := (z + 2 ^ 15) mod 2 ^ 16 - 2 ^ 15.
Definition int64 (z : Z) : Z := (z + 2 ^ 63) mod 2 ^ 64 - 2 ^ 63.

(** Largest value of [int]; [len] of a slice never exceeds it. *)
Definition MaxInt : Z := 2 ^ 63 - 1.

Definition len {A} (s : list A) : Z := Z.of_nat (length s).

(** [s[i]] *)
Definition index {A} (s : list A) (i : Z) : option A :=
  if (0 <=? i) && (i <? len s) then nth_error s (Z.to_nat i) else None.

(** [s[lo:]] *)
Definition slice_from {A} (s : list A) (lo : Z) : option (list A) :=
  if (0 <=? lo) && (lo <=? len s) then Some (skipn (Z.to_nat lo) s) else None.

(** [s[:hi]] *)
Definition slice_to {A} (s : list A) (hi : Z) : option (list A) :=
  if (0 <=? hi) && (hi <=? len s) then Some (firstn (Z.to_nat hi) s) else None.

(** [binary.LittleEndian.Uint32(b)] of encoding/binary. *)
Definition LittleEndian_Uint32 (b : list byte) : option Z :=
  b3 <- index b 3 ;;
  b0 <- index b 0 ;;
  b1 <- index b 1 ;;
  b2 <- index b 2 ;;
  Some (Z.lor (Z.lor (Z.lor (bv b0) (Z.shiftl (bv b1) 8))
                     (Z.shiftl (bv b2) 16))
              (Z.shiftl (bv b3) 24)).

(** [binary.BigEndian.Uint16(b)] of encoding/binary. *)
Definition BigEndian_Uint16 (b : list byte) : option Z :=
  b1 <- index b 1 ;;
  b0 <- index b 0 ;;
  Some (Z.lor (bv b1) (Z.shiftl (bv b0) 8)).

End Go.

Import Go.

(** ** Signature descriptors *)

Record signatureModuleDataInitx64 := {
  x64_moduleDataPtrLoc : Z;
  x64_moduleDataPtrOffsetLoc : Z;
  x64_signature : list byte
}.

Record signatureModuleDataInitx86 := {
  x86_moduleDataPtrLoc : Z;
  x86_moduleDataSignature : list byte;
  x86_loopMaxDistanceFromModuleData : Z;
  x86_loopSignature : list byte
}.

Record signatureModuleDataInitPPC := {
  ppc_moduleDataPtrHi : Z;
  ppc_moduleDataPtrLo : Z;
  ppc_signature : list byte
}.

Record SignatureMatch := { moduleDataVA : Z }.

Definition x64sig : signatureModuleDataInitx64 :=
  {| x64_moduleDataPtrLoc := 3;
     x64_moduleDataPtrOffsetLoc := 7;
     x64_signature := list_byte_of_string
       "48 8D 0? ?? ?? ?? ?? EB ?? 48 8? 8? ?? 02 00 00 66 0F 1F 44 00 00"%string |}.

Definition x86sig : signatureModuleDataInitx86 :=
  {| x86_moduleDataPtrLoc := 2;
     x86_moduleDataSignature := list_byte_of_string
       "8D ?? ?? ?? ?? ?? EB 1A"%string;
     x86_loopMaxDistanceFromModuleData := 50;
     x86_loopSignature := list_byte_of_string
       "8B ?? ?? ?? ?? ?? 8B ?? 24 20 85 ?? 75 E2"%string |}.

Definition PPC_BE_sig : signatureModuleDataInitPPC :=
  {| ppc_moduleDataPtrHi := 2;
     ppc_moduleDataPtrLo := 6;
     ppc_signature := list_byte_of_string
       "3? 80 00 2C 3? ?? 80 00 48 ?? ?? 08 E? ?? 02 30 7C ?? 00 00 41 82 ?? ??"%string |}.

(** ** Pattern primitives *)

Definition getPatternSize (signature : list byte) : Z :=
  (len signature + 1) / 3.

Definition getBits (x : byte) : Z :=
  if (bv "0"%byte <=? bv x) && (bv x <=? bv "9"%byte)
  then uint8 (bv x - bv "0"%byte)
  else uint8 (uint8 (Z.land (bv x) 0xDF - bv "A"%byte) + 0xa).

(** ** The scanner *)

(** One pass of the inner loop body of [findPattern] at [sigIdx]: [Some true]
    when the byte agrees (the loop goes on), [Some false] on [break]. *)
Definition matchByte (data signature : list byte) (i sigIdx : Z) : option bool :=
  let sigPatIdx := sigIdx * 3 in
  s0 <- slice_from signature sigPatIdx ;;
  c0 <- index s0 0 ;;
  let sigHi := uint8 (Z.shiftl (getBits c0) 4) in
  s1 <- slice_from signature sigPatIdx ;;
  c1 <- index s1 1 ;;
  let sigLo := getBits c1 in
  d <- slice_from data (i + sigIdx) ;;
  datByt <- index d 0 ;;
  q1 <- index signature (sigPatIdx + 1) ;;
  let sigLo := if Byte.eqb q1 "?"%byte then Z.land (bv datByt) 0xF else sigLo in
  q0 <- index signature sigPatIdx ;;
  let sigHi := if Byte.eqb q0 "?"%byte then Z.land (bv datByt) 0xF0 else sigHi in
  Some (bv datByt =? Z.lor sigHi sigLo).

(** The inner loop, started at [sigIdx] with [rest] iterations left before
    [sigIdx] reaches [patternSize] (the caller keeps
    [sigIdx + rest = patternSize]); it returns the final [sigIdx].  The index
    arithmetic never overflows an [int]: [i + sigIdx <= len(data)] and
    [sigIdx * 3 <= len(signature)] hold whenever they are evaluated. *)
Fixpoint matchLoop (data signature : list byte) (patternSize i : Z)
    (rest : nat) (sigIdx : Z) : option Z :=
  match rest with
  | O => Some sigIdx
  | S rest' =>
      if (sigIdx <? patternSize) && (i + sigIdx <? len data) then
        ok <- matchByte data signature i sigIdx ;;
        if ok then matchLoop data signature patternSize i rest' (sigIdx + 1)
        else Some sigIdx
      else Some sigIdx
  end.

(** The body of [for i := range data], threaded over the indices. *)
Fixpoint scanLoop (data signature : list byte)
    (callback : Z -> option (list SignatureMatch)) (patternSize : Z)
    (indices : list nat) (matches : list SignatureMatch)
    : option (list SignatureMatch) :=
  match indices with
  | [] => Some matches
  | n :: indices' =>
      let i := Z.of_nat n in
      sigIdx <- matchLoop data signature patternSize i (Z.to_nat patternSize) 0 ;;
      matches' <- (if patternSize <=? sigIdx
                   then r <- callback (uint64 i) ;; Some (matches ++ r)
                   else Some matches) ;;
      scanLoop data signature callback patternSize indices' matches'
  end.

Definition findPattern (data signature : list byte)
    (callback : Z -> option (list SignatureMatch))
    : option (list SignatureMatch) :=
  let matches := [] in
  let patternSize := getPatternSize signature in
  scanLoop data signature callback patternSize (seq 0 (length data)) matches.

(** ** The three resolvers and the collector *)

Definition x64_resolve (data : list byte) (sectionBase sigPtr : Z)
    : option (list SignatureMatch) :=
  s <- slice_from data (uint64 (sigPtr + uint64 (x64_moduleDataPtrLoc x64sig))) ;;
  b <- slice_to s 4 ;;
  w <- LittleEndian_Uint32 b ;;
  let moduleDataPtrOffset := uint64 w in
  let moduleDataIpOffset :=
    uint64 (uint64 sigPtr + uint64 (x64_moduleDataPtrOffsetLoc x64sig)) in
  Some [ {| moduleDataVA :=
              uint64 (uint64 (moduleDataPtrOffset + moduleDataIpOffset)
                      + sectionBase) |} ].

Definition x86_loop_resolve (data : list byte) (sigPtr sigPtr2 : Z)
    : option (list SignatureMatch) :=
  if sigPtr2 <? uint64 (x86_loopMaxDistanceFromModuleData x86sig) then
    s <- slice_from data (uint64 (sigPtr + uint64 (x86_moduleDataPtrLoc x86sig))) ;;
    b <- slice_to s 4 ;;
    w <- LittleEndian_Uint32 b ;;
    let moduleDataPtr := uint64 w in
    Some [ {| moduleDataVA := moduleDataPtr |} ]
  else Some [].

Definition x86_resolve (data : list byte) (sigPtr : Z)
    : option (list SignatureMatch) :=
  sub <- slice_from data sigPtr ;;
  findPattern sub (x86_loopSignature x86sig) (x86_loop_resolve data sigPtr).

Definition ppc_resolve (data : list byte) (sigPtr : Z)
    : option (list SignatureMatch) :=
  s <- slice_from data (uint64 (sigPtr + uint64 (ppc_moduleDataPtrHi PPC_BE_sig))) ;;
  b <- slice_to s 2 ;;
  w <- BigEndian_Uint16 b ;;
  let moduleDataPtrHi := int64 w in
  s' <- slice_from data (uint64 (sigPtr + uint64 (ppc_moduleDataPtrLo PPC_BE_sig))) ;;
  b' <- slice_to s' 2 ;;
  w' <- BigEndian_Uint16 b' ;;
  let moduleDataPtrLo := int64 (int16 w') in
  let moduleDataIpOffset :=
    uint64 (int64 (int64 (Z.shiftl moduleDataPtrHi 16) + moduleDataPtrLo)) in
  Some [ {| moduleDataVA := moduleDataIpOffset |} ].

Definition findModuleInitPCHeader (data : list byte) (sectionBase : Z)
    : option (list SignatureMatch) :=
  let matches := [] in
  r64 <- findPattern data (x64_signature x64sig) (x64_resolve data sectionBase) ;;
  let matches := matches ++ r64 in
  r86 <- findPattern data (x86_moduleDataSignature x86sig) (x86_resolve data) ;;
  let matches := matches ++ r86 in
  rppc <- findPattern data (ppc_signature PPC_BE_sig) (ppc_resolve data) ;;
  let matches := matches ++ rppc in
  Some matches.

(** ** Derived descriptions used by the statements *)

(** The test the inner loop performs on one byte, with the two pattern
    characters and the data byte already fetched. *)
Definition byteTest (c0 c1 d : byte) : bool :=
  let sigHi := if Byte.eqb c0 "?"%byte then Z.land (bv d) 0xF0
               else uint8 (Z.shiftl (getBits c0) 4) in
  let sigLo := if Byte.eqb c1 "?"%byte then Z.land (bv d) 0xF
               else getBits c1 in
  bv d =? Z.lor sigHi sigLo.

Definition patternBytes (signature : list byte) : nat :=
  Z.to_nat (getPatternSize signature).

(** The inner loop runs to [patternSize] at start offset [i]. *)
Definition loopCompletesAt (data signature : list byte) (i : nat) : bool :=
  forallb (fun k => (i + k <? length data)%nat
                    && byteTest (nth (3 * k) signature x00)
                                (nth (3 * k + 1) signature x00)
                                (nth (i + k) data x00))
          (seq 0 (patternBytes signature)).

(** Running a fallible callback over a list of offsets, in order, and
    concatenating what it returns. *)
Fixpoint flatMapM (f : Z -> option (list SignatureMatch)) (l : list Z)
    : option (list SignatureMatch) :=
  match l with
  | [] => Some []
  | x :: l' => r <- f x ;; rs <- flatMapM f l' ;; Some (r ++ rs)
  end.

Definition offsetU64 (i : nat) : Z := uint64 (Z.of_nat i).

(** The callback that reports the offset it is given. *)
Definition report (i : Z) : option (list SignatureMatch) :=
  Some [ {| moduleDataVA := i |} ].

(** ** The pattern format and the match relation, as the specification words them *)

Module Spec.

Definition isDigit (c : byte) : bool := (bv "0"%byte <=? bv c) && (bv c <=? bv "9"%byte).
Definition isUpperHexLetter (c : byte) : bool := (bv "A"%byte <=? bv c) && (bv c <=? bv "F"%byte).
Definition isLowerHexLetter (c : byte) : bool := (bv "a"%byte <=? bv c) && (bv c <=? bv "f"%byte).
Definition isWildcard (c : byte) : bool := Byte.eqb c "?"%byte.

(** A pattern character: an uppercase hex digit or the wildcard. *)
Definition patternNibble (c : byte) : bool :=
  isDigit c || isUpperHexLetter c || isWildcard c.

(** Value of an uppercase hex digit. *)
Definition hexValue (c : byte) : Z :=
  if isDigit c then bv c - bv "0"%byte else bv c - bv "A"%byte + 10.

(** "a wildcard nibble always matches; a fixed nibble must equal the
    corresponding nibble of the data byte" *)
Definition nibbleMatches (c : byte) (n : Z) : bool :=
  isWildcard c || (hexValue c =? n).

Definition byteMatches (c0 c1 d : byte) : bool :=
  nibbleMatches c0 (bv d / 16) && nibbleMatches c1 (bv d mod 16).

(** Text of [b >= 1] bytes: two pattern characters per byte, single spaces
    between bytes, length [3 * b - 1]. *)
Definition wf_pattern (signature : list byte) : bool :=
  let b := patternBytes signature in
  (1 <=? b)%nat && (length signature =? 3 * b - 1)%nat
  && forallb (fun k => patternNibble (nth (3 * k) signature x00)
                       && patternNibble (nth (3 * k + 1) signature x00)
                       && ((k + 1 =? b)%nat
                           || Byte.eqb (nth (3 * k + 2) signature x00) " "%byte))
             (seq 0 b).

(** The pattern fits at [i] and every byte position agrees. *)
Definition matchesAt (data signature : list byte) (i : nat) : bool :=
  (i + patternBytes signature <=? length data)%nat
  && forallb (fun k => byteMatches (nth (3 * k) signature x00)
                                   (nth (3 * k + 1) signature x00)
                                   (nth (i + k) data x00))
             (seq 0 (patternBytes signature)).

(** Start offsets of all matches, in ascending order. *)
Definition matchOffsets (data signature : list byte) : list nat :=
  filter (matchesAt data signature) (seq 0 (length data)).

Definition allWildcards (signature : list byte) : bool :=
  forallb (fun k => isWildcard (nth (3 * k) signature x00)
                    && isWildcard (nth (3 * k + 1) signature x00))
          (seq 0 (patternBytes signature)).

Definition noWildcards (signature : list byte) : bool :=
  forallb (fun k => negb (isWildcard (nth (3 * k) signature x00))
                    && negb (isWildcard (nth (3 * k + 1) signature x00)))
          (seq 0 (patternBytes signature)).

(** The byte values a wildcard-free pattern spells out. *)
Definition literalValues (signature : list byte) : list Z :=
  map (fun k => 16 * hexValue (nth (3 * k) signature x00)
                + hexValue (nth (3 * k + 1) signature x00))
      (seq 0 (patternBytes signature)).

(** Little-endian 32-bit and big-endian 16-bit values stored at [p]. *)
Definition le32At (data : list byte) (p : nat) : Z :=
  bv (nth p data x00) + 2 ^ 8 * bv (nth (p + 1) data x00)
  + 2 ^ 16 * bv (nth (p + 2) data x00) + 2 ^ 24 * bv (nth (p + 3) data x00).

Definition be16At (data : list byte) (p : nat) : Z :=
  2 ^ 8 * bv (nth p data x00) + bv (nth (p + 1) data x00).

(** Two's-complement reading of a [w]-bit value. *)
Definition signed (w : Z) (z : Z) : Z :=
  if z <? 2 ^ (w - 1) then z else z - 2 ^ w.

(** Two pattern characters that differ at most in the case of a hex letter. *)
Definition caseVariant (c c' : byte) : Prop :=
  c' = c \/
  ((isUpperHexLetter c || isLowerHexLetter c) = true
   /\ bv c' = Z.lxor (bv c) 0x20).

End Spec.

Import Spec.

(** All 256 bytes, for exhaustive checks. *)
Definition allBytes : list byte :=
  flat_map (fun n => match Byte.of_N (N.of_nat n) with
                     | Some b => [b]
                     | None => []
                     end)
           (seq 0 256).

(** The code's byte test agrees with the nibble-wise reading on all pattern
    characters and data bytes: an exhaustive table, row by row. *)
Definition byteTestCell (c0 c1 d : byte) : bool :=
  Bool.eqb (byteTest c0 c1 d) (byteMatches c0 c1 d).

Definition byteTestRow (c0 c1 : byte) : bool :=
  if patternNibble c1 then forallb (byteTestCell c0 c1) allBytes else true.

Definition byteTestRows (c0 : byte) : bool :=
  if patternNibble c0 then forallb (byteTestRow c0) allBytes else true.

(** ** Further descriptions of the scan *)

(** The offsets at which [findPattern] calls its callback, in call order. *)
Definition scanOffsets (data signature : list byte) : list nat :=
  filter (loopCompletesAt data signature) (seq 0 (length data)).

(** A reported value moved by a section base, in [uint64] arithmetic. *)
Definition rebase (sectionBase : Z) (r : SignatureMatch) : SignatureMatch :=
  {| moduleDataVA := uint64 (moduleDataVA r + sectionBase) |}.

(** What [getBits] does on one character, checked against its reading as a
    hex digit. *)
Definition getBitsCheck (c : byte) : bool :=
  Bool.eqb (getBits c <? 16)
           (isDigit c || isUpperHexLetter c || isLowerHexLetter c
            || Byte.eqb c "@"%byte || Byte.eqb c "`"%byte)
  && (if isDigit c then getBits c =? bv c - bv "0"%byte else true)
  && (if isUpperHexLetter c then getBits c =? bv c - bv "A"%byte + 10 else true)
  && (if isLowerHexLetter c then getBits c =? bv c - bv "a"%byte + 10 else true)
  && (if Byte.eqb c "@"%byte || Byte.eqb c "`"%byte then getBits c =? 9 else true).

(** ** Concrete buffers *)

(** The instruction bytes quoted above [x64sig] in the source. *)
Definition buf_x64 : list byte :=
  [x48; x8d; x0d; x8f; xda; x26; x00; xeb; x0d; x48; x8b; x89; x30; x02; x00; x00;
   x66; x0f; x1f; x44; x00; x00].

(** The same idiom with displacement bytes [F0 FF FF FF]. *)
Definition buf_x64_high : list byte :=
  [x48; x8d; x0d; xf0; xff; xff; xff; xeb; x0d; x48; x8b; x89; x30; x02; x00; x00;
   x66; x0f; x1f; x44; x00; x00].

(** The 32-bit idiom: the pointer load at offset 0 and the loop idiom at
    offset [d]. *)
Definition buf_x86 (d : nat) : list byte :=
  [x8d; x05; x60; x49; x6a; x00; xeb; x1a]
  ++ repeat x00 (d - 8)
  ++ [x8b; x80; x18; x01; x00; x00; x8b; x54; x24; x20; x85; xc0; x75; xe2].

(** The instruction bytes quoted above [PPC_BE_sig] in the source. *)
Definition buf_ppc : list byte :=
  [x3c; x80; x00; x2c; x38; x84; x80; x00; x48; x00; x00; x08; xe8; x84; x02; x30;
   x7c; x24; x00; x00; x41; x82; x01; xa8].

(** The shortest buffer on which the collector reports something: the 32-bit
    pointer load with the loop idiom overlapping it from offset 2. *)
Definition buf_x86_min : list byte :=
  [x8d; x05; x8b; x49; x6a; x00; xeb; x1a; x8b; x00; x24; x20; x85; xc0; x75; xe2].

(** Eight bytes that match no signature: high half [0x8000] with low half
    [0x0001], and high half [0x0000] with low half [0xFFFF]. *)
Definition buf_ppc_high : list byte := [x00; x00; x80; x00; x00; x00; x00; x01].
Definition buf_ppc_neg : list byte := [x00; x00; x00; x00; x00; x00; xff; xff].

(** ** Sanity checks on concrete inputs *)

Example getPatternSize_x64 : getPatternSize (x64_signature x64sig) = 22.
Proof. reflexivity. Qed.

Example getBits_digits :
  map getBits (list_byte_of_string "0123456789ABCDEFabcdef"%string)
  = [0; 1; 2; 3; 4; 5; 6; 7; 8; 9; 10; 11; 12; 13; 14; 15; 10; 11; 12; 13; 14; 15].
Proof. reflexivity. Qed.

Example static_signatures_wf :
  wf_pattern (x64_signature x64sig) = true
  /\ wf_pattern (x86_moduleDataSignature x86sig) = true
  /\ wf_pattern (x86_loopSignature x86sig) = true
  /\ wf_pattern (ppc_signature PPC_BE_sig) = true.
Proof. repeat split; reflexivity. Qed.

Example wf_pattern_rejects :
  map wf_pattern [ list_byte_of_string ""%string;
                   list_byte_of_string "A"%string;
                   list_byte_of_string "AA "%string;
                   list_byte_of_string "AA  BB"%string;
                   list_byte_of_string "AA-BB"%string;
                   list_byte_of_string "aa"%string ]
  = [false; false; false; false; false; false].
Proof. reflexivity. Qed.

(** ** Basic facts on bytes, indices and slices *)

Lemma bv_range (b : byte) : 0 <= bv b < 256.
Proof.
  unfold bv. pose proof (Byte.to_N_bounded b). lia.
Qed.

Lemma bv_inj (a b : byte) : bv a = bv b -> a = b.
Proof.
  unfold bv. intros H. apply N2Z.inj in H.
  pose proof (Byte.of_to_N a) as Ha. rewrite H, Byte.of_to_N in Ha.
  congruence.
Qed.

Lemma len_nonneg {A} (s : list A) : 0 <= len s.
Proof. unfold len. lia. Qed.

Lemma bind_Some {A B} (m : option A) (k : A -> option B) (a : A) :
  m = Some a -> Panic.bind m k = k a.
Proof. intros ->. reflexivity. Qed.

Lemma index_nth {A} (s : list A) (n : nat) (d : A) :
  (n < length s)%nat -> index s (Z.of_nat n) = Some (nth n s d).
Proof.
  intros H. unfold index, len.
  replace ((0 <=? Z.of_nat n) && (Z.of_nat n <? Z.of_nat (length s))) with true
    by (symmetry; apply andb_true_iff; split; [apply Z.leb_le | apply Z.ltb_lt]; lia).
  rewrite Nat2Z.id. now apply nth_error_nth'.
Qed.

Lemma slice_from_skipn {A} (s : list A) (n : nat) :
  (n <= length s)%nat -> slice_from s (Z.of_nat n) = Some (skipn n s).
Proof.
  intros H. unfold slice_from, len.
  replace ((0 <=? Z.of_nat n) && (Z.of_nat n <=? Z.of_nat (length s))) with true
    by (symmetry; apply andb_true_iff; split; apply Z.leb_le; lia).
  now rewrite Nat2Z.id.
Qed.

Lemma slice_to_firstn {A} (s : list A) (n : nat) :
  (n <= length s)%nat -> slice_to s (Z.of_nat n) = Some (firstn n s).
Proof.
  intros H. unfold slice_to, len.
  replace ((0 <=? Z.of_nat n) && (Z.of_nat n <=? Z.of_nat (length s))) with true
    by (symmetry; apply andb_true_iff; split; apply Z.leb_le; lia).
  now rewrite Nat2Z.id.
Qed.

Lemma nth_skipn {A} (s : list A) (n k : nat) (d : A) :
  nth k (skipn n s) d = nth (n + k) s d.
Proof.
  revert s. induction n as [|n IH]; intros s; [reflexivity|].
  destruct s as [|a s]; [now destruct k | apply IH].
Qed.

Lemma nth_firstn {A} (s : list A) (n k : nat) (d : A) :
  (k < n)%nat -> nth k (firstn n s) d = nth k s d.
Proof.
  revert s k. induction n as [|n IH]; intros s k H; [lia|].
  destruct s as [|a s]; [reflexivity|].
  destruct k as [|k]; cbn; [reflexivity | apply IH; lia].
Qed.

(** Reading element [k] of [s[n:]]. *)
Lemma slice_index {A} (s : list A) (n k : nat) (d : A) :
  (n + k < length s)%nat ->
  (t <- slice_from s (Z.of_nat n) ;; index t (Z.of_nat k)) = Some (nth (n + k) s d).
Proof.
  intros H. rewrite slice_from_skipn by lia. cbn [Panic.bind].
  rewrite (index_nth _ _ d) by (rewrite length_skipn; lia).
  now rewrite nth_skipn.
Qed.

Lemma uint64_small (z : Z) : 0 <= z < 2 ^ 64 -> uint64 z = z.
Proof. intros H. unfold uint64. now apply Z.mod_small. Qed.

Lemma offsetU64_small (i : nat) :
  Z.of_nat i <= MaxInt -> offsetU64 i = Z.of_nat i.
Proof. unfold offsetU64, MaxInt. intros H. apply uint64_small. lia. Qed.

(** ** The inner loop *)

Lemma getPatternSize_nat (signature : list byte) :
  getPatternSize signature = Z.of_nat (patternBytes signature).
Proof.
  unfold patternBytes, getPatternSize. rewrite Z2Nat.id; [reflexivity|].
  apply Z.div_pos; [pose proof (len_nonneg signature)|]; lia.
Qed.

Lemma patternBytes_bound (signature : list byte) :
  (3 * patternBytes signature <= length signature + 1)%nat.
Proof.
  pose proof (getPatternSize_nat signature) as H.
  unfold getPatternSize, len in H.
  pose proof (Z.mul_div_le (Z.of_nat (length signature) + 1) 3). lia.
Qed.

Lemma patternBytes_length (signature : list byte) (b : nat) :
  (1 <= b)%nat -> length signature = (3 * b - 1)%nat -> patternBytes signature = b.
Proof.
  intros Hb Hl. unfold patternBytes, getPatternSize, len. rewrite Hl.
  replace (Z.of_nat (3 * b - 1) + 1) with (Z.of_nat b * 3) by lia.
  rewrite Z.div_mul by lia. apply Nat2Z.id.
Qed.

(** Every signature index the loop body forms is in range, whatever the
    signature text, and so is the data index guarded by the loop test. *)
Lemma matchByte_byteTest (data signature : list byte) (i k : nat) :
  (k < patternBytes signature)%nat -> (i + k < length data)%nat ->
  matchByte data signature (Z.of_nat i) (Z.of_nat k)
  = Some (byteTest (nth (3 * k) signature x00)
                   (nth (3 * k + 1) signature x00)
                   (nth (i + k) data x00)).
Proof.
  intros Hk Hi. pose proof (patternBytes_bound signature) as Hb.
  unfold matchByte.
  replace (Z.of_nat k * 3) with (Z.of_nat (3 * k)) by lia.
  replace (Z.of_nat (3 * k) + 1) with (Z.of_nat (3 * k + 1)) by lia.
  replace (Z.of_nat i + Z.of_nat k) with (Z.of_nat (i + k)) by lia.
  rewrite (slice_from_skipn signature) by lia. cbn [Panic.bind].
  rewrite (index_nth _ 0 x00) by (rewrite length_skipn; lia). cbn [Panic.bind].
  rewrite (index_nth _ 1 x00) by (rewrite length_skipn; lia). cbn [Panic.bind].
  rewrite (slice_from_skipn data) by lia. cbn [Panic.bind].
  rewrite (index_nth _ 0 x00) by (rewrite length_skipn; lia). cbn [Panic.bind].
  rewrite (index_nth signature (3 * k + 1) x00) by lia. cbn [Panic.bind].
  rewrite (index_nth signature (3 * k) x00) by lia. cbn [Panic.bind].
  rewrite !nth_skipn, !Nat.add_0_r. reflexivity.
Qed.

Lemma matchLoop_completes (data signature : list byte) (i : nat) :
  forall (rest k : nat),
    (k + rest = patternBytes signature)%nat ->
    exists sigIdx,
      matchLoop data signature (getPatternSize signature) (Z.of_nat i) rest (Z.of_nat k)
      = Some sigIdx
      /\ Z.of_nat k <= sigIdx <= getPatternSize signature
      /\ (getPatternSize signature <=? sigIdx)
         = forallb (fun k => (i + k <? length data)%nat
                             && byteTest (nth (3 * k) signature x00)
                                         (nth (3 * k + 1) signature x00)
                                         (nth (i + k) data x00))
                   (seq k rest).
Proof.
  rewrite getPatternSize_nat.
  induction rest as [|rest IH]; intros k Hk.
  - exists (Z.of_nat k). cbn [matchLoop seq forallb].
    split; [reflexivity|]. split; [lia|]. apply Z.leb_le. lia.
  - cbn [matchLoop seq forallb].
    replace (Z.of_nat k <? Z.of_nat (patternBytes signature)) with true
      by (symmetry; apply Z.ltb_lt; lia).
    unfold len. cbn [andb].
    destruct (Nat.ltb_spec (i + k) (length data)) as [Hin|Hout].
    + replace (Z.of_nat i + Z.of_nat k <? Z.of_nat (length data)) with true
        by (symmetry; apply Z.ltb_lt; lia).
      rewrite matchByte_byteTest by lia. cbn [Panic.bind andb].
      destruct (byteTest _ _ _).
      * replace (Z.of_nat k + 1) with (Z.of_nat (S k)) by lia.
        destruct (IH (S k)) as (s & Hs & Hr & Hf); [lia|].
        exists s. split; [assumption|]. split; [lia|assumption].
      * exists (Z.of_nat k). split; [reflexivity|]. split; [lia|]. apply Z.leb_gt. lia.
    + replace (Z.of_nat i + Z.of_nat k <? Z.of_nat (length data)) with false
        by (symmetry; apply Z.ltb_ge; lia).
      exists (Z.of_nat k). split; [reflexivity|]. split; [lia|]. apply Z.leb_gt. lia.
Qed.

Lemma matchLoop_loopCompletesAt (data signature : list byte) (i : nat) :
  exists sigIdx,
    matchLoop data signature (getPatternSize signature) (Z.of_nat i)
              (Z.to_nat (getPatternSize signature)) 0 = Some sigIdx
    /\ (getPatternSize signature <=? sigIdx) = loopCompletesAt data signature i.
Proof.
  destruct (matchLoop_completes data signature i (patternBytes signature) 0)
    as (s & Hs & _ & Hf); [lia|].
  exists s. split; assumption.
Qed.

(** ** The outer loop *)

Lemma scanLoop_flatMapM (data signature : list byte)
    (f : Z -> option (list SignatureMatch)) :
  forall (indices : list nat) (acc : list SignatureMatch),
    scanLoop data signature f (getPatternSize signature) indices acc
    = (rs <- flatMapM f (map offsetU64 (filter (loopCompletesAt data signature) indices)) ;;
       Some (acc ++ rs)).
Proof.
  induction indices as [|n indices IH]; intros acc.
  - cbn. now rewrite app_nil_r.
  - cbn [scanLoop filter].
    destruct (matchLoop_loopCompletesAt data signature n) as (s & Hs & Hc).
    rewrite Hs. cbn [Panic.bind]. rewrite Hc.
    destruct (loopCompletesAt data signature n).
    + cbn [map flatMapM]. fold (offsetU64 n).
      destruct (f (offsetU64 n)) as [r|]; [|reflexivity].
      cbn [Panic.bind]. rewrite IH.
      destruct (flatMapM f _) as [rs|]; [|reflexivity].
      cbn [Panic.bind]. now rewrite app_assoc.
    + cbn [Panic.bind]. apply IH.
Qed.

(** [findPattern] itself never faults: it calls the callback at the offsets
    where the inner loop completes, in ascending order, and faults only when
    a callback does. *)
Lemma findPattern_flatMapM (data signature : list byte)
    (f : Z -> option (list SignatureMatch)) :
  findPattern data signature f
  = flatMapM f (map offsetU64
                    (filter (loopCompletesAt data signature) (seq 0 (length data)))).
Proof.
  unfold findPattern. cbv zeta. rewrite scanLoop_flatMapM.
  destruct (flatMapM f _); reflexivity.
Qed.

(** ** Agreement of the loop with the nibble-wise match relation *)

Lemma allBytes_complete (b : byte) : In b allBytes.
Proof.
  unfold allBytes. apply in_flat_map. exists (N.to_nat (Byte.to_N b)). split.
  - apply in_seq. pose proof (Byte.to_N_bounded b). lia.
  - rewrite N2Nat.id, Byte.of_to_N. now left.
Qed.

Lemma forallb_allBytes (P : byte -> bool) :
  forallb P allBytes = true -> forall b, P b = true.
Proof.
  intros H b. rewrite forallb_forall in H. apply H, allBytes_complete.
Qed.

Lemma guarded_true (g x : bool) :
  (if g then x else true) = true -> g = true -> x = true.
Proof. now intros H ->. Qed.

Lemma byteTestTable_true : forallb byteTestRows allBytes = true.
Proof. vm_compute. reflexivity. Qed.

Lemma byteTest_byteMatches (c0 c1 d : byte) :
  patternNibble c0 = true -> patternNibble c1 = true ->
  byteTest c0 c1 d = byteMatches c0 c1 d.
Proof.
  intros H0 H1. apply eqb_prop.
  pose proof (forallb_allBytes byteTestRows byteTestTable_true c0) as R0.
  pose proof (forallb_allBytes (byteTestRow c0) (guarded_true _ _ R0 H0) c1) as R1.
  exact (forallb_allBytes (byteTestCell c0 c1) (guarded_true _ _ R1 H1) d).
Qed.

Lemma forallb_andb {A} (p q : A -> bool) (l : list A) :
  forallb (fun x => p x && q x) l = forallb p l && forallb q l.
Proof.
  induction l as [|a l IH]; [reflexivity|]. cbn. rewrite IH.
  destruct (p a), (q a), (forallb p l); reflexivity.
Qed.

Lemma forallb_in_ext {A} (p q : A -> bool) (l : list A) :
  (forall x, In x l -> p x = q x) -> forallb p l = forallb q l.
Proof.
  induction l as [|a l IH]; intros H; [reflexivity|]. cbn.
  rewrite (H a) by now left. f_equal. apply IH. intros x Hx. apply H. now right.
Qed.

Lemma forallb_fits (n b : nat) (bound : nat) :
  (1 <= b)%nat ->
  forallb (fun k => (n + k <? bound)%nat) (seq 0 b) = (n + b <=? bound)%nat.
Proof.
  intros Hb. destruct (Nat.leb_spec (n + b) bound) as [Hle|Hgt].
  - apply forallb_forall. intros k Hk. apply in_seq in Hk. apply Nat.ltb_lt. lia.
  - apply not_true_is_false. intros H. rewrite forallb_forall in H.
    specialize (H (b - 1)%nat). rewrite in_seq, Nat.ltb_lt in H. lia.
Qed.

Lemma wf_pattern_inv (signature : list byte) :
  wf_pattern signature = true ->
  (1 <= patternBytes signature)%nat
  /\ length signature = (3 * patternBytes signature - 1)%nat
  /\ forall k, (k < patternBytes signature)%nat ->
       patternNibble (nth (3 * k) signature x00) = true
       /\ patternNibble (nth (3 * k + 1) signature x00) = true.
Proof.
  unfold wf_pattern. cbv zeta. rewrite !andb_true_iff, forallb_forall.
  intros [[Hb Hl] Hn]. apply Nat.leb_le in Hb. apply Nat.eqb_eq in Hl.
  repeat split; try assumption;
    specialize (Hn k); rewrite in_seq, !andb_true_iff in Hn;
    destruct Hn as [[? ?] _]; (lia || assumption).
Qed.

Lemma loopCompletesAt_matchesAt (data signature : list byte) (i : nat) :
  wf_pattern signature = true ->
  loopCompletesAt data signature i = matchesAt data signature i.
Proof.
  intros Hwf. destruct (wf_pattern_inv _ Hwf) as (Hb & _ & Hn).
  unfold loopCompletesAt, matchesAt.
  rewrite forallb_andb, forallb_fits by assumption. f_equal.
  apply forallb_in_ext. intros k Hk. apply in_seq in Hk.
  destruct (Hn k) as [H0 H1]; [lia|]. now apply byteTest_byteMatches.
Qed.

Lemma findPattern_matchOffsets (data signature : list byte)
    (f : Z -> option (list SignatureMatch)) :
  wf_pattern signature = true ->
  findPattern data signature f
  = flatMapM f (map offsetU64 (matchOffsets data signature)).
Proof.
  intros Hwf. rewrite findPattern_flatMapM. unfold matchOffsets.
  do 2 f_equal. apply filter_ext. intros i. now apply loopCompletesAt_matchesAt.
Qed.

Lemma matchOffsets_In (data signature : list byte) (i : nat) :
  In i (matchOffsets data signature)
  <-> (i < length data)%nat /\ matchesAt data signature i = true.
Proof.
  unfold matchOffsets. rewrite filter_In, in_seq. intuition lia.
Qed.

Lemma matchOffsets_fit (data signature : list byte) (i : nat) :
  In i (matchOffsets data signature) ->
  (i + patternBytes signature <= length data)%nat.
Proof.
  intros H. apply matchOffsets_In in H as [_ H]. unfold matchesAt in H.
  apply andb_true_iff in H as [H _]. now apply Nat.leb_le.
Qed.

(** ** Running callbacks over the offsets *)

Lemma flatMapM_total (f : Z -> option (list SignatureMatch))
    (g : nat -> list SignatureMatch) (l : list nat) :
  (forall i, In i l -> f (offsetU64 i) = Some (g i)) ->
  flatMapM f (map offsetU64 l) = Some (flat_map g l).
Proof.
  induction l as [|i l IH]; intros H; [reflexivity|].
  cbn [map flatMapM flat_map]. rewrite (H i) by now left. cbn [Panic.bind].
  rewrite IH by (intros j Hj; apply H; now right). reflexivity.
Qed.

Lemma flat_map_singleton {A B} (g : A -> B) (l : list A) :
  flat_map (fun x => [g x]) l = map g l.
Proof. induction l as [|a l IH]; [reflexivity|]. cbn. now rewrite IH. Qed.

Lemma flatMapM_singleton (f : Z -> option (list SignatureMatch))
    (g : nat -> SignatureMatch) (l : list nat) :
  (forall i, In i l -> f (offsetU64 i) = Some [g i]) ->
  flatMapM f (map offsetU64 l) = Some (map g l).
Proof.
  intros H. rewrite <- (flat_map_singleton g). now apply flatMapM_total.
Qed.

(** ** Byte-order decoding *)

Lemma land_low_shiftl (a b n : Z) :
  0 <= n -> 0 <= a < 2 ^ n -> Z.land a (Z.shiftl b n) = 0.
Proof.
  intros Hn Ha. apply Z.bits_inj'. intros k Hk.
  rewrite Z.land_spec, Z.bits_0.
  destruct (Z.lt_ge_cases k n) as [Hlt|Hge].
  - rewrite Z.shiftl_spec_low by lia. apply andb_false_r.
  - rewrite <- (Z.mod_small a (2 ^ n)) by lia.
    rewrite Z.mod_pow2_bits_high by lia. reflexivity.
Qed.

Lemma lor_shiftl_add (a b n : Z) :
  0 <= n -> 0 <= a < 2 ^ n -> Z.lor a (Z.shiftl b n) = a + 2 ^ n * b.
Proof.
  intros Hn Ha. pose proof (Z.add_lor_land a (Z.shiftl b n)) as H.
  rewrite land_low_shiftl in H by assumption.
  rewrite Z.shiftl_mul_pow2 in * by assumption.
  rewrite (Z.mul_comm (2 ^ n) b). lia.
Qed.

Lemma LittleEndian_Uint32_at (data : list byte) (p : nat) :
  (p + 4 <= length data)%nat ->
  LittleEndian_Uint32 (firstn 4 (skipn p data)) = Some (le32At data p).
Proof.
  intros H. unfold LittleEndian_Uint32.
  assert (L : length (firstn 4 (skipn p data)) = 4%nat)
    by (rewrite length_firstn, length_skipn; lia).
  rewrite (index_nth _ 3 x00), (index_nth _ 0 x00),
          (index_nth _ 1 x00), (index_nth _ 2 x00) by lia.
  cbn [Panic.bind]. rewrite !nth_firstn, !nth_skipn, Nat.add_0_r by lia.
  unfold le32At.
  pose proof (bv_range (nth p data x00)).
  pose proof (bv_range (nth (p + 1) data x00)).
  pose proof (bv_range (nth (p + 2) data x00)).
  pose proof (bv_range (nth (p + 3) data x00)).
  rewrite (lor_shiftl_add _ _ 8) by lia.
  rewrite (lor_shiftl_add _ _ 16) by lia.
  rewrite (lor_shiftl_add _ _ 24) by lia.
  reflexivity.
Qed.

Lemma BigEndian_Uint16_at (data : list byte) (p : nat) :
  (p + 2 <= length data)%nat ->
  BigEndian_Uint16 (firstn 2 (skipn p data)) = Some (be16At data p).
Proof.
  intros H. unfold BigEndian_Uint16.
  assert (L : length (firstn 2 (skipn p data)) = 2%nat)
    by (rewrite length_firstn, length_skipn; lia).
  rewrite (index_nth _ 1 x00), (index_nth _ 0 x00) by lia.
  cbn [Panic.bind]. rewrite !nth_firstn, !nth_skipn, Nat.add_0_r by lia.
  unfold be16At.
  pose proof (bv_range (nth (p + 1) data x00)).
  rewrite (lor_shiftl_add _ _ 8) by lia. f_equal. lia.
Qed.

Lemma le32At_range (data : list byte) (p : nat) : 0 <= le32At data p < 2 ^ 32.
Proof.
  unfold le32At.
  pose proof (bv_range (nth p data x00)).
  pose proof (bv_range (nth (p + 1) data x00)).
  pose proof (bv_range (nth (p + 2) data x00)).
  pose proof (bv_range (nth (p + 3) data x00)). lia.
Qed.

Lemma be16At_range (data : list byte) (p : nat) : 0 <= be16At data p < 2 ^ 16.
Proof.
  unfold be16At.
  pose proof (bv_range (nth p data x00)).
  pose proof (bv_range (nth (p + 1) data x00)). lia.
Qed.

(** ** The resolvers at an offset where the pattern fits *)

Lemma x64_resolve_value (data : list byte) (sectionBase : Z) (m : nat) :
  len data <= MaxInt -> (m + 7 <= length data)%nat ->
  x64_resolve data sectionBase (offsetU64 m)
  = Some [ {| moduleDataVA :=
                uint64 (le32At data (m + 3) + (Z.of_nat m + 7) + sectionBase) |} ].
Proof.
  unfold len, MaxInt. intros Hlen Hm. unfold x64_resolve.
  rewrite offsetU64_small by (unfold MaxInt; lia). cbn [x64sig x64_moduleDataPtrLoc
    x64_moduleDataPtrOffsetLoc].
  rewrite (uint64_small 3), (uint64_small 7), (uint64_small (Z.of_nat m)),
          (uint64_small (Z.of_nat m + 3)), (uint64_small (Z.of_nat m + 7)) by lia.
  replace (Z.of_nat m + 3) with (Z.of_nat (m + 3)) by lia.
  rewrite slice_from_skipn by lia. cbn [Panic.bind].
  change 4 with (Z.of_nat 4).
  rewrite slice_to_firstn by (rewrite length_skipn; lia). cbn [Panic.bind].
  rewrite LittleEndian_Uint32_at by lia. cbn [Panic.bind].
  pose proof (le32At_range data (m + 3)).
  rewrite (uint64_small (le32At data (m + 3))) by lia.
  unfold uint64. rewrite Z.add_mod_idemp_l by lia. reflexivity.
Qed.

Lemma x86_loop_resolve_value (data : list byte) (m m2 : nat) :
  len data <= MaxInt -> (m + 6 <= length data)%nat -> Z.of_nat m2 <= MaxInt ->
  x86_loop_resolve data (Z.of_nat m) (offsetU64 m2)
  = Some (if Z.of_nat m2 <? 50
          then [ {| moduleDataVA := le32At data (m + 2) |} ]
          else []).
Proof.
  unfold len, MaxInt. intros Hlen Hm Hm2. unfold x86_loop_resolve.
  rewrite offsetU64_small by (unfold MaxInt; lia).
  cbn [x86sig x86_moduleDataPtrLoc x86_loopMaxDistanceFromModuleData].
  rewrite (uint64_small 50), (uint64_small 2) by lia.
  destruct (Z.of_nat m2 <? 50); [|reflexivity].
  rewrite (uint64_small (Z.of_nat m + 2)) by lia.
  replace (Z.of_nat m + 2) with (Z.of_nat (m + 2)) by lia.
  rewrite slice_from_skipn by lia. cbn [Panic.bind].
  change 4 with (Z.of_nat 4).
  rewrite slice_to_firstn by (rewrite length_skipn; lia). cbn [Panic.bind].
  rewrite LittleEndian_Uint32_at by lia. cbn [Panic.bind].
  pose proof (le32At_range data (m + 2)).
  rewrite uint64_small by lia. reflexivity.
Qed.

Lemma x86_resolve_value (data : list byte) (m : nat) :
  len data <= MaxInt -> (m + 6 <= length data)%nat ->
  x86_resolve data (offsetU64 m)
  = Some (flat_map (fun m2 => if Z.of_nat m2 <? 50
                              then [ {| moduleDataVA := le32At data (m + 2) |} ]
                              else [])
                   (matchOffsets (skipn m data) (x86_loopSignature x86sig))).
Proof.
  intros Hlen Hm. unfold x86_resolve.
  rewrite offsetU64_small by (unfold len in Hlen; lia).
  rewrite slice_from_skipn by lia. cbn [Panic.bind].
  rewrite findPattern_matchOffsets by reflexivity.
  apply flatMapM_total. intros m2 H2. apply matchOffsets_In in H2 as [H2 _].
  rewrite length_skipn in H2.
  apply x86_loop_resolve_value; try assumption. unfold len in Hlen. lia.
Qed.

Lemma int64_small (z : Z) : - 2 ^ 63 <= z < 2 ^ 63 -> int64 z = z.
Proof. intros H. unfold int64. rewrite Z.mod_small by lia. lia. Qed.

Lemma int16_signed (z : Z) : 0 <= z < 2 ^ 16 -> int16 z = signed 16 z.
Proof.
  intros H. unfold int16, signed. change (16 - 1) with 15.
  destruct (Z.ltb_spec z (2 ^ 15)) as [Hlo|Hhi].
  - rewrite Z.mod_small by lia. lia.
  - replace (z + 2 ^ 15) with (z - 2 ^ 15 + 1 * 2 ^ 16) by lia.
    rewrite Z.mod_add by lia. rewrite Z.mod_small by lia. lia.
Qed.

Lemma signed16_range (z : Z) : 0 <= z < 2 ^ 16 -> - 2 ^ 15 <= signed 16 z < 2 ^ 15.
Proof.
  intros H. unfold signed. change (16 - 1) with 15.
  destruct (Z.ltb_spec z (2 ^ 15)); lia.
Qed.

Lemma ppc_resolve_value (data : list byte) (m : nat) :
  len data <= MaxInt -> (m + 8 <= length data)%nat ->
  ppc_resolve data (offsetU64 m)
  = Some [ {| moduleDataVA :=
                uint64 (2 ^ 16 * be16At data (m + 2)
                        + signed 16 (be16At data (m + 6))) |} ].
Proof.
  unfold len, MaxInt. intros Hlen Hm. unfold ppc_resolve.
  rewrite offsetU64_small by (unfold MaxInt; lia).
  cbn [PPC_BE_sig ppc_moduleDataPtrHi ppc_moduleDataPtrLo].
  rewrite (uint64_small 2), (uint64_small 6),
          (uint64_small (Z.of_nat m + 2)), (uint64_small (Z.of_nat m + 6)) by lia.
  replace (Z.of_nat m + 2) with (Z.of_nat (m + 2)) by lia.
  replace (Z.of_nat m + 6) with (Z.of_nat (m + 6)) by lia.
  rewrite slice_from_skipn by lia. cbn [Panic.bind].
  rewrite (slice_to_firstn _ 2) by (rewrite length_skipn; lia). cbn [Panic.bind].
  rewrite BigEndian_Uint16_at by lia. cbn [Panic.bind].
  rewrite slice_from_skipn by lia. cbn [Panic.bind].
  rewrite (slice_to_firstn _ 2) by (rewrite length_skipn; lia). cbn [Panic.bind].
  rewrite BigEndian_Uint16_at by lia. cbn [Panic.bind].
  pose proof (be16At_range data (m + 2)) as Hhi.
  pose proof (be16At_range data (m + 6)) as Hlo.
  pose proof (signed16_range _ Hlo) as Hs.
  rewrite (int64_small (be16At data (m + 2))) by lia.
  rewrite Z.shiftl_mul_pow2 by lia.
  rewrite (int64_small (be16At data (m + 2) * 2 ^ 16)) by lia.
  rewrite int16_signed by assumption.
  rewrite (int64_small (signed 16 _)) by lia.
  rewrite int64_small by lia.
  rewrite (Z.mul_comm (be16At data (m + 2)) (2 ^ 16)). reflexivity.
Qed.

(** ** The three scans, as lists over the match offsets *)

(** From [Hm : In m (matchOffsets data sig)] for a static signature, the
    numeric bound [m + b <= length data]. *)
Ltac pattern_fits Hm :=
  apply matchOffsets_fit in Hm;
  match type of Hm with
  | context [patternBytes ?sig] =>
      let b := eval vm_compute in (patternBytes sig) in
      change (patternBytes sig) with b in Hm
  end.

Lemma x64_scan_result (data : list byte) (sectionBase : Z) :
  len data <= MaxInt ->
  findPattern data (x64_signature x64sig) (x64_resolve data sectionBase)
  = Some (map (fun m =>
                 {| moduleDataVA :=
                      uint64 (le32At data (m + 3) + (Z.of_nat m + 7) + sectionBase) |})
              (matchOffsets data (x64_signature x64sig))).
Proof.
  intros Hlen. rewrite findPattern_matchOffsets by reflexivity.
  apply flatMapM_singleton.
  intros m Hm. pattern_fits Hm.
  apply x64_resolve_value; [assumption | lia].
Qed.

Lemma x86_scan_result (data : list byte) :
  len data <= MaxInt ->
  findPattern data (x86_moduleDataSignature x86sig) (x86_resolve data)
  = Some (flat_map
            (fun m =>
               flat_map (fun m2 => if Z.of_nat m2 <? 50
                                   then [ {| moduleDataVA := le32At data (m + 2) |} ]
                                   else [])
                        (matchOffsets (skipn m data) (x86_loopSignature x86sig)))
            (matchOffsets data (x86_moduleDataSignature x86sig))).
Proof.
  intros Hlen. rewrite findPattern_matchOffsets by reflexivity.
  apply flatMapM_total.
  intros m Hm. pattern_fits Hm.
  apply x86_resolve_value; [assumption | lia].
Qed.

Lemma ppc_scan_result (data : list byte) :
  len data <= MaxInt ->
  findPattern data (ppc_signature PPC_BE_sig) (ppc_resolve data)
  = Some (map (fun m =>
                 {| moduleDataVA :=
                      uint64 (2 ^ 16 * be16At data (m + 2)
                              + signed 16 (be16At data (m + 6))) |})
              (matchOffsets data (ppc_signature PPC_BE_sig))).
Proof.
  intros Hlen. rewrite findPattern_matchOffsets by reflexivity.
  apply flatMapM_singleton.
  intros m Hm. pattern_fits Hm.
  apply ppc_resolve_value; [assumption | lia].
Qed.

(** ** The 64-bit resolver *)

(** What the 64-bit scan computes as written: for the matches [m] in
    ascending order, [d + (m + moduleDataPtrOffsetLoc) + sectionBase] modulo
    [2^64] with the four bytes at [m + moduleDataPtrLoc] entering as the
    number [d] in [0, 2^32).  This is the target of the [lea] only while the
    displacement's top bit is clear, as on the bytes quoted in the source
    (displacement [0x0026DA8F], section base [0x00400000], result
    [0x0026DA8F + 7 + 0x00400000]). *)
Theorem x64_resolved_values (data : list byte) (sectionBase : Z)
    (Hlen : len data <= MaxInt) :
  findPattern data (x64_signature x64sig) (x64_resolve data sectionBase)
  = Some (map (fun m =>
                 {| moduleDataVA :=
                      uint64 (le32At data (m + Z.to_nat (x64_moduleDataPtrLoc x64sig))
                              + (Z.of_nat m + x64_moduleDataPtrOffsetLoc x64sig)
                              + sectionBase) |})
              (matchOffsets data (x64_signature x64sig)))
  /\ le32At buf_x64 3 = 0x0026DA8F
  /\ findPattern buf_x64 (x64_signature x64sig) (x64_resolve buf_x64 0x00400000)
     = Some [ {| moduleDataVA := 0x0026DA8F + 7 + 0x00400000 |} ].
Proof.
  split; [|split; reflexivity].
  now apply x64_scan_result.
Qed.

Lemma x64_resolved_values_witness :
  len buf_x64 <= MaxInt
  /\ findPattern buf_x64 (x64_signature x64sig) (x64_resolve buf_x64 0x00400000)
     = Some [ {| moduleDataVA := 0x0026DA8F + 7 + 0x00400000 |} ].
Proof.
  split; [vm_compute; discriminate|].
  apply (x64_resolved_values buf_x64 0x00400000). vm_compute; discriminate.
Defined.

(** C1.  The displacement of the RIP-relative [lea] is a signed 32-bit
    number, and the resolved value is meant to be
    [d + (m + moduleDataPtrOffsetLoc) + sectionBase] modulo [2^64] with [d]
    sign-extended, as it is on the bytes quoted in the source.  The code
    zero-extends instead: on a match whose displacement bytes are
    [F0 FF FF FF] (that is [-16]) with section base [0x00400000] it returns
    [0xFFFFFFF0 + 7 + 0x00400000 = 0x1003FFFF7], which is [2^32] above the
    target [-16 + 7 + 0x00400000 = 0x3FFFF7]. *)
Lemma x64_displacement_not_sign_extended :
  (le32At buf_x64 3 = 0x0026DA8F
   /\ signed 32 (le32At buf_x64 3) = 0x0026DA8F
   /\ findPattern buf_x64 (x64_signature x64sig) (x64_resolve buf_x64 0x00400000)
      = Some [ {| moduleDataVA := 0x0026DA8F + 7 + 0x00400000 |} ])
  /\ matchOffsets buf_x64_high (x64_signature x64sig) = [0%nat]
  /\ signed 32 (le32At buf_x64_high 3) = -16
  /\ uint64 (signed 32 (le32At buf_x64_high 3) + (0 + 7) + 0x00400000) = 0x3FFFF7
  /\ findPattern buf_x64_high (x64_signature x64sig)
                 (x64_resolve buf_x64_high 0x00400000)
     = Some [ {| moduleDataVA := 0x1003FFFF7 |} ]
  /\ findModuleInitPCHeader buf_x64_high 0x00400000
     = Some [ {| moduleDataVA := 0x3FFFF7 + 2 ^ 32 |} ]
  /\ findPattern buf_x64_high (x64_signature x64sig)
                 (x64_resolve buf_x64_high 0x00400000)
     <> Some (map (fun m =>
                     {| moduleDataVA :=
                          uint64 (signed 32 (le32At buf_x64_high (m + 3))
                                  + (Z.of_nat m + 7) + 0x00400000) |})
                  (matchOffsets buf_x64_high (x64_signature x64sig))).
Proof.
  repeat split; try reflexivity. vm_compute. discriminate.
Qed.

(** ** The 32-bit resolver *)

(** C2.  Over any buffer, the 32-bit scan yields, for every first-stage match
    [m] and every loop-signature match at relative offset [m2] in the
    sub-buffer starting at [m], the raw 32-bit little-endian pointer at
    [m + moduleDataPtrLoc] exactly when [m2 < loopMaxDistanceFromModuleData],
    and nothing otherwise; no section base enters the value.  A loop match at
    distance 49 is accepted, one at distance 50 is rejected. *)
Theorem x86_emitted_values (data : list byte) (Hlen : len data <= MaxInt) :
  findPattern data (x86_moduleDataSignature x86sig) (x86_resolve data)
  = Some (flat_map
            (fun m =>
               flat_map
                 (fun m2 =>
                    if Z.of_nat m2 <? x86_loopMaxDistanceFromModuleData x86sig
                    then [ {| moduleDataVA :=
                                le32At data (m + Z.to_nat (x86_moduleDataPtrLoc x86sig)) |} ]
                    else [])
                 (matchOffsets (skipn m data) (x86_loopSignature x86sig)))
            (matchOffsets data (x86_moduleDataSignature x86sig)))
  /\ (matchOffsets (buf_x86 49) (x86_loopSignature x86sig) = [49%nat]
      /\ findPattern (buf_x86 49) (x86_moduleDataSignature x86sig)
                     (x86_resolve (buf_x86 49))
         = Some [ {| moduleDataVA := 0x006A4960 |} ])
  /\ (matchOffsets (buf_x86 50) (x86_loopSignature x86sig) = [50%nat]
      /\ findPattern (buf_x86 50) (x86_moduleDataSignature x86sig)
                     (x86_resolve (buf_x86 50))
         = Some []).
Proof.
  split; [|repeat split; vm_compute; reflexivity].
  now apply x86_scan_result.
Qed.

Lemma x86_emitted_values_witness :
  len (buf_x86 49) <= MaxInt
  /\ findPattern (buf_x86 49) (x86_moduleDataSignature x86sig)
                 (x86_resolve (buf_x86 49))
     = Some [ {| moduleDataVA := 0x006A4960 |} ].
Proof.
  split; [vm_compute; discriminate|].
  apply (x86_emitted_values (buf_x86 49)). vm_compute; discriminate.
Defined.

(** ** The big-endian resolver *)

Lemma ppc_value_forms (hi lo : Z) :
  0 <= hi < 2 ^ 16 -> 0 <= lo < 2 ^ 16 ->
  uint64 (int64 (Z.shiftl hi 16 + signed 16 lo))
  = uint64 (2 ^ 16 * hi + signed 16 lo).
Proof.
  intros Hhi Hlo. pose proof (signed16_range _ Hlo) as Hs.
  rewrite Z.shiftl_mul_pow2 by lia. rewrite int64_small by lia.
  now rewrite (Z.mul_comm hi (2 ^ 16)).
Qed.

(** C3.  At every offset [m] of a buffer that leaves room for the two reads,
    a match or not, the big-endian resolver returns the single value
    [(hi << 16) + lo], computed in signed 64-bit arithmetic and reinterpreted
    as unsigned 64-bit, where [hi] is the unsigned 16-bit big-endian value at
    [m + moduleDataPtrHi] and [lo] the sign-extended 16-bit big-endian value
    at [m + moduleDataPtrLo]; the scan returns these values for its matches,
    in ascending order.  With [hi = 0x002C] and low bits [0x8000] (that is
    [-32768]) the result is [0x2B8000]; [hi = 0x8000] is not sign-extended
    ([0x8000], [0x0001] give [0x80000001]), and a negative sum wraps
    ([0x0000], [0xFFFF] give [2^64 - 1]). *)
Theorem ppc_resolved_values (data : list byte) (Hlen : len data <= MaxInt) :
  (forall m, (m + 8 <= length data)%nat ->
     let hi := be16At data (m + Z.to_nat (ppc_moduleDataPtrHi PPC_BE_sig)) in
     let lo := signed 16 (be16At data
                            (m + Z.to_nat (ppc_moduleDataPtrLo PPC_BE_sig))) in
     ppc_resolve data (offsetU64 m)
     = Some [ {| moduleDataVA := uint64 (int64 (Z.shiftl hi 16 + lo)) |} ])
  /\ findPattern data (ppc_signature PPC_BE_sig) (ppc_resolve data)
     = Some (map (fun m =>
                    let hi := be16At data (m + Z.to_nat (ppc_moduleDataPtrHi PPC_BE_sig)) in
                    let lo := signed 16 (be16At data
                                           (m + Z.to_nat (ppc_moduleDataPtrLo PPC_BE_sig))) in
                    {| moduleDataVA := uint64 (int64 (Z.shiftl hi 16 + lo)) |})
                 (matchOffsets data (ppc_signature PPC_BE_sig)))
  /\ (be16At buf_ppc 2 = 0x002C
      /\ be16At buf_ppc 6 = 0x8000
      /\ signed 16 0x8000 = -32768
      /\ ppc_resolve buf_ppc 0 = Some [ {| moduleDataVA := 0x2B8000 |} ]
      /\ findPattern buf_ppc (ppc_signature PPC_BE_sig) (ppc_resolve buf_ppc)
         = Some [ {| moduleDataVA := 0x2B8000 |} ])
  /\ (be16At buf_ppc_high 2 = 0x8000
      /\ signed 16 (be16At buf_ppc_high 6) = 1
      /\ ppc_resolve buf_ppc_high 0 = Some [ {| moduleDataVA := 0x80000001 |} ])
  /\ (be16At buf_ppc_neg 2 = 0
      /\ signed 16 (be16At buf_ppc_neg 6) = -1
      /\ ppc_resolve buf_ppc_neg 0 = Some [ {| moduleDataVA := 2 ^ 64 - 1 |} ]).
Proof.
  split; [|split; [|repeat split; reflexivity]].
  - intros m Hm. cbv zeta.
    cbn [PPC_BE_sig ppc_moduleDataPtrHi ppc_moduleDataPtrLo].
    change (Z.to_nat 2) with 2%nat. change (Z.to_nat 6) with 6%nat.
    rewrite ppc_value_forms by apply be16At_range.
    now apply ppc_resolve_value.
  - rewrite ppc_scan_result by assumption. f_equal.
    apply map_ext. intros m. cbv zeta.
    cbn [PPC_BE_sig ppc_moduleDataPtrHi ppc_moduleDataPtrLo].
    change (Z.to_nat 2) with 2%nat. change (Z.to_nat 6) with 6%nat.
    now rewrite ppc_value_forms by apply be16At_range.
Qed.

Lemma ppc_resolved_values_witness :
  len buf_ppc_neg <= MaxInt
  /\ (0 + 8 <= length buf_ppc_neg)%nat
  /\ ppc_resolve buf_ppc_neg (offsetU64 0)
     = Some [ {| moduleDataVA :=
                   uint64 (int64 (Z.shiftl (be16At buf_ppc_neg 2) 16
                                  + signed 16 (be16At buf_ppc_neg 6))) |} ].
Proof.
  assert (H : len buf_ppc_neg <= MaxInt) by (vm_compute; discriminate).
  split; [exact H|]. split; [cbn; lia|].
  apply (proj1 (ppc_resolved_values buf_ppc_neg H) 0%nat). cbn; lia.
Defined.

(** ** The scanner *)

Lemma loopCompletesAt_fit (data signature : list byte) (i : nat) :
  (i < length data)%nat -> loopCompletesAt data signature i = true ->
  (i + patternBytes signature <= length data)%nat.
Proof.
  intros Hi H. unfold loopCompletesAt in H. rewrite forallb_forall in H.
  destruct (patternBytes signature) as [|b] eqn:E; [lia|].
  specialize (H b). rewrite in_seq, andb_true_iff, Nat.ltb_lt in H.
  destruct H as [H _]; lia.
Qed.

(** C4.  For every buffer and every pattern text (well-formed or not),
    [findPattern] itself performs no out-of-range access: it returns what the
    callback returns at a list of offsets [i], all with
    [i + getPatternSize(pattern) <= len(data)], and faults only if the
    callback does.  An attempt that runs out of data reports nothing, so a
    buffer shorter than the pattern, or an empty one, gives the empty list.
    For a text of [b >= 1] bytes, of length [3 * b - 1], [getPatternSize] is
    [b]. *)
Theorem scanner_bounds (data signature : list byte) :
  exists offsets : list nat,
    (forall f, findPattern data signature f = flatMapM f (map offsetU64 offsets))
    /\ findPattern data signature report
       = Some (map (fun i => {| moduleDataVA := offsetU64 i |}) offsets)
    /\ Forall (fun i => Z.of_nat i + getPatternSize signature <= len data) offsets
    /\ (len data < getPatternSize signature -> offsets = [])
    /\ (data = [] -> offsets = [])
    /\ (forall b, (1 <= b)%nat -> length signature = (3 * b - 1)%nat ->
                  getPatternSize signature = Z.of_nat b).
Proof.
  exists (filter (loopCompletesAt data signature) (seq 0 (length data))).
  assert (F : Forall (fun i => Z.of_nat i + getPatternSize signature <= len data)
                     (filter (loopCompletesAt data signature) (seq 0 (length data)))).
  { apply Forall_forall. intros i Hi. apply filter_In in Hi as [Hi Hc].
    apply in_seq in Hi. rewrite getPatternSize_nat. unfold len.
    pose proof (loopCompletesAt_fit data signature i ltac:(lia) Hc). lia. }
  split; [|split; [|split; [|split; [|split]]]].
  - intros f. apply findPattern_flatMapM.
  - rewrite findPattern_flatMapM. unfold report.
    rewrite <- (flat_map_singleton (fun i => {| moduleDataVA := offsetU64 i |})).
    now apply flatMapM_total.
  - exact F.
  - intros Hshort.
    destruct (filter _ _) as [|i l]; [reflexivity|].
    inversion F as [|? ? Hi _]; subst. lia.
  - intros ->. reflexivity.
  - intros b Hb Hl. rewrite getPatternSize_nat. f_equal.
    now apply patternBytes_length.
Qed.

Lemma flatMapM_pure (g : Z -> list SignatureMatch) (l : list Z) :
  flatMapM (fun i => Some (g i)) l = Some (flat_map g l).
Proof.
  induction l as [|x l IH]; [reflexivity|]. cbn. now rewrite IH.
Qed.

Lemma filter_seq_sorted (p : nat -> bool) (n a : nat) :
  StronglySorted lt (filter p (seq a n)).
Proof.
  revert a. induction n as [|n IH]; intros a; [constructor|].
  cbn [seq filter]. destruct (p a); [|apply IH].
  constructor; [apply IH|]. apply Forall_forall. intros x Hx.
  apply filter_In in Hx as [Hx _]. apply in_seq in Hx. lia.
Qed.

(** C5.  For every buffer, well-formed pattern and callback [f], the scan
    visits the start offsets [0 .. len(data)-1] in ascending order and its
    result is the concatenation of [f(i)] over exactly the offsets [i] where
    the pattern matches, in ascending order.  A match does not move the scan
    position, so overlapping matches are all reported: ["AA AA"] over
    [AA AA AA] matches at 0 and at 1. *)
Theorem scanner_output (data signature : list byte)
    (f : Z -> option (list SignatureMatch))
    (Hwf : wf_pattern signature = true) :
  findPattern data signature f
  = flatMapM f (map offsetU64 (matchOffsets data signature))
  /\ (forall g, findPattern data signature (fun i => Some (g i))
                = Some (flat_map g (map offsetU64 (matchOffsets data signature))))
  /\ StronglySorted lt (matchOffsets data signature)
  /\ (forall i, In i (matchOffsets data signature)
                <-> (i < length data)%nat /\ matchesAt data signature i = true)
  /\ findPattern [xaa; xaa; xaa] (list_byte_of_string "AA AA"%string) report
     = Some [ {| moduleDataVA := 0 |}; {| moduleDataVA := 1 |} ].
Proof.
  split; [|split; [|split; [|split]]].
  - now apply findPattern_matchOffsets.
  - intros g. rewrite findPattern_matchOffsets by assumption. apply flatMapM_pure.
  - apply filter_seq_sorted.
  - apply matchOffsets_In.
  - reflexivity.
Qed.

Lemma scanner_output_witness :
  wf_pattern (list_byte_of_string "AA AA"%string) = true
  /\ findPattern [xaa; xaa; xaa] (list_byte_of_string "AA AA"%string) report
     = flatMapM report
         (map offsetU64
              (matchOffsets [xaa; xaa; xaa] (list_byte_of_string "AA AA"%string))).
Proof.
  split; [reflexivity|].
  apply (scanner_output [xaa; xaa; xaa] (list_byte_of_string "AA AA"%string) report).
  reflexivity.
Defined.

(** ** Wildcards and literals *)

Lemma firstn_skipn_seq {A} (s : list A) (i b : nat) (d : A) :
  (i + b <= length s)%nat ->
  firstn b (skipn i s) = map (fun k => nth (i + k) s d) (seq 0 b).
Proof.
  intros H. apply (nth_ext _ _ d d).
  - rewrite length_firstn, length_skipn, length_map, length_seq. lia.
  - intros n Hn. rewrite length_firstn, length_skipn in Hn.
    rewrite nth_firstn, nth_skipn by lia.
    rewrite (nth_indep (map _ _) d (nth (i + 0) s d))
      by (rewrite length_map, length_seq; lia).
    rewrite (map_nth (fun k => nth (i + k) s d)), seq_nth by lia. reflexivity.
Qed.

Lemma hexValue_range (c : byte) :
  patternNibble c = true -> isWildcard c = false -> 0 <= hexValue c < 16.
Proof.
  unfold patternNibble, hexValue, isDigit, isUpperHexLetter. intros H W.
  rewrite W, orb_false_r in H.
  change (bv "0"%byte) with 48 in *. change (bv "9"%byte) with 57 in *.
  change (bv "A"%byte) with 65 in *. change (bv "F"%byte) with 70 in *.
  destruct (Z.leb_spec 48 (bv c)), (Z.leb_spec (bv c) 57),
           (Z.leb_spec 65 (bv c)), (Z.leb_spec (bv c) 70);
    cbn in H |- *; try discriminate; lia.
Qed.

Lemma byteMatches_wildcards (c0 c1 d : byte) :
  isWildcard c0 = true -> isWildcard c1 = true -> byteMatches c0 c1 d = true.
Proof. unfold byteMatches, nibbleMatches. now intros -> ->. Qed.

Lemma byteMatches_literal (c0 c1 d : byte) :
  patternNibble c0 = true -> patternNibble c1 = true ->
  isWildcard c0 = false -> isWildcard c1 = false ->
  byteMatches c0 c1 d = true <-> bv d = 16 * hexValue c0 + hexValue c1.
Proof.
  intros P0 P1 W0 W1.
  pose proof (hexValue_range c0 P0 W0). pose proof (hexValue_range c1 P1 W1).
  pose proof (bv_range d).
  unfold byteMatches, nibbleMatches. rewrite W0, W1. cbn [orb].
  rewrite andb_true_iff, !Z.eqb_eq.
  split; intros; Z.div_mod_to_equations; lia.
Qed.

(** C6.  For every buffer, well-formed pattern and start offset [i] inside
    the buffer, the loop's test at [i] succeeds exactly when the pattern fits
    and, byte by byte, each nibble either is the wildcard or equals the
    corresponding nibble of the data byte.  Hence an all-wildcard pattern
    matches wherever it fits, and a wildcard-free pattern matches exactly
    where the buffer holds its literal byte sequence. *)
Theorem wildcard_matching (data signature : list byte) (i : nat)
    (Hwf : wf_pattern signature = true) (Hi : (i < length data)%nat) :
  (exists sigIdx,
      matchLoop data signature (getPatternSize signature) (Z.of_nat i)
                (Z.to_nat (getPatternSize signature)) 0 = Some sigIdx
      /\ (getPatternSize signature <=? sigIdx) = matchesAt data signature i)
  /\ (forall k, (k < patternBytes signature)%nat ->
                (i + k < length data)%nat ->
        let c0 := nth (3 * k) signature x00 in
        let c1 := nth (3 * k + 1) signature x00 in
        let d := nth (i + k) data x00 in
        matchByte data signature (Z.of_nat i) (Z.of_nat k)
        = Some (nibbleMatches c0 (bv d / 16) && nibbleMatches c1 (bv d mod 16)))
  /\ (allWildcards signature = true ->
      (matchesAt data signature i = true
       <-> (i + patternBytes signature <= length data)%nat))
  /\ (noWildcards signature = true ->
      (matchesAt data signature i = true
       <-> (i + patternBytes signature <= length data)%nat
           /\ map bv (firstn (patternBytes signature) (skipn i data))
              = literalValues signature)).
Proof.
  destruct (wf_pattern_inv _ Hwf) as (Hb & _ & Hn).
  split; [|split; [|split]].
  - destruct (matchLoop_loopCompletesAt data signature i) as (s & Hs & Hc).
    exists s. split; [assumption|]. now rewrite Hc, loopCompletesAt_matchesAt.
  - intros k Hk Hik. cbv zeta. rewrite matchByte_byteTest by assumption.
    destruct (Hn k Hk) as [P0 P1]. now rewrite byteTest_byteMatches.
  - intros Hw. unfold allWildcards in Hw. rewrite forallb_forall in Hw.
    unfold matchesAt. rewrite andb_true_iff, Nat.leb_le, forallb_forall.
    split; [now intros [? _]|]. intros Hfit. split; [assumption|].
    intros k Hk. specialize (Hw k Hk). apply andb_true_iff in Hw as [W0 W1].
    now apply byteMatches_wildcards.
  - intros Hw. unfold noWildcards in Hw. rewrite forallb_forall in Hw.
    assert (L : forall k, In k (seq 0 (patternBytes signature)) ->
                byteMatches (nth (3 * k) signature x00)
                            (nth (3 * k + 1) signature x00) (nth (i + k) data x00)
                = true
                <-> bv (nth (i + k) data x00)
                    = 16 * hexValue (nth (3 * k) signature x00)
                      + hexValue (nth (3 * k + 1) signature x00)).
    { intros k Hk. specialize (Hw k Hk).
      apply andb_true_iff in Hw as [W0 W1]. apply negb_true_iff in W0, W1.
      apply in_seq in Hk. destruct (Hn k) as [P0 P1]; [lia|].
      now apply byteMatches_literal. }
    unfold matchesAt. rewrite andb_true_iff, Nat.leb_le, forallb_forall.
    split; intros [Hfit H]; (split; [assumption|]).
    + rewrite (firstn_skipn_seq _ _ _ x00), map_map by assumption.
      unfold literalValues. apply map_ext_in. intros k Hk. now apply L, H.
    + rewrite (firstn_skipn_seq _ _ _ x00), map_map in H by assumption.
      unfold literalValues in H. rewrite map_ext_in_iff in H.
      intros k Hk. apply L; [assumption|]. now apply H.
Qed.

Lemma wildcard_matching_witness :
  wf_pattern (list_byte_of_string "A? 4B"%string) = true
  /\ (1 < length [x00; xa7; x4b])%nat
  /\ exists sigIdx,
       matchLoop [x00; xa7; x4b] (list_byte_of_string "A? 4B"%string)
                 (getPatternSize (list_byte_of_string "A? 4B"%string)) (Z.of_nat 1)
                 (Z.to_nat (getPatternSize (list_byte_of_string "A? 4B"%string))) 0
       = Some sigIdx
       /\ (getPatternSize (list_byte_of_string "A? 4B"%string) <=? sigIdx)
          = matchesAt [x00; xa7; x4b] (list_byte_of_string "A? 4B"%string) 1.
Proof.
  split; [reflexivity|]. split; [cbn; lia|].
  apply (wildcard_matching [x00; xa7; x4b] (list_byte_of_string "A? 4B"%string) 1);
    [reflexivity | cbn; lia].
Defined.

(** ** The collector *)

(** C7.  For every buffer and section base, [findModuleInitPCHeader] runs
    the 64-bit, the 32-bit and the big-endian scan over the same buffer, each
    to completion, and returns their outputs concatenated in that order,
    nothing dropped, merged or reordered. *)
Theorem collector_concatenates (data : list byte) (sectionBase : Z)
    (Hlen : len data <= MaxInt) :
  exists r64 r86 rppc,
    findPattern data (x64_signature x64sig) (x64_resolve data sectionBase) = Some r64
    /\ findPattern data (x86_moduleDataSignature x86sig) (x86_resolve data) = Some r86
    /\ findPattern data (ppc_signature PPC_BE_sig) (ppc_resolve data) = Some rppc
    /\ findModuleInitPCHeader data sectionBase = Some (r64 ++ r86 ++ rppc).
Proof.
  pose proof (x64_scan_result data sectionBase Hlen) as H64.
  pose proof (x86_scan_result data Hlen) as H86.
  pose proof (ppc_scan_result data Hlen) as Hppc.
  eexists _, _, _. split; [exact H64|]. split; [exact H86|]. split; [exact Hppc|].
  unfold findModuleInitPCHeader. rewrite H64, H86, Hppc. cbn [Panic.bind].
  cbv zeta. now rewrite app_nil_l, app_assoc.
Qed.

Lemma collector_concatenates_witness :
  len (buf_x64 ++ buf_ppc) <= MaxInt
  /\ exists r64 r86 rppc,
       findPattern (buf_x64 ++ buf_ppc) (x64_signature x64sig)
                   (x64_resolve (buf_x64 ++ buf_ppc) 0x00400000) = Some r64
       /\ findPattern (buf_x64 ++ buf_ppc) (x86_moduleDataSignature x86sig)
                      (x86_resolve (buf_x64 ++ buf_ppc)) = Some r86
       /\ findPattern (buf_x64 ++ buf_ppc) (ppc_signature PPC_BE_sig)
                      (ppc_resolve (buf_x64 ++ buf_ppc)) = Some rppc
       /\ findModuleInitPCHeader (buf_x64 ++ buf_ppc) 0x00400000
          = Some (r64 ++ r86 ++ rppc).
Proof.
  split; [vm_compute; discriminate|].
  apply (collector_concatenates (buf_x64 ++ buf_ppc) 0x00400000).
  vm_compute; discriminate.
Defined.

Example collector_on_two_idioms :
  findModuleInitPCHeader (buf_x64 ++ buf_ppc) 0x00400000
  = Some [ {| moduleDataVA := 0x0026DA8F + 7 + 0x00400000 |};
           {| moduleDataVA := 0x2B8000 |} ].
Proof. reflexivity. Qed.

(** ** The big-endian signature fixes the bytes it resolves *)

Lemma matched_literal_byte (data signature : list byte) (m k : nat) (v : Z) :
  In m (matchOffsets data signature) ->
  (k < patternBytes signature)%nat ->
  patternNibble (nth (3 * k) signature x00) = true ->
  patternNibble (nth (3 * k + 1) signature x00) = true ->
  isWildcard (nth (3 * k) signature x00) = false ->
  isWildcard (nth (3 * k + 1) signature x00) = false ->
  16 * hexValue (nth (3 * k) signature x00)
  + hexValue (nth (3 * k + 1) signature x00) = v ->
  bv (nth (m + k) data x00) = v.
Proof.
  intros Hm Hk P0 P1 W0 W1 <-.
  apply matchOffsets_In in Hm as [_ Hm]. unfold matchesAt in Hm.
  apply andb_true_iff in Hm as [_ Hm]. rewrite forallb_forall in Hm.
  apply byteMatches_literal; try assumption. apply Hm, in_seq. lia.
Qed.

Lemma ppc_match_immediates (data : list byte) (m : nat) :
  In m (matchOffsets data (ppc_signature PPC_BE_sig)) ->
  bv (nth (m + 2) data x00) = 0x00 /\ bv (nth (m + 3) data x00) = 0x2C
  /\ bv (nth (m + 6) data x00) = 0x80 /\ bv (nth (m + 7) data x00) = 0x00.
Proof.
  intros Hm.
  repeat split;
    apply (matched_literal_byte data (ppc_signature PPC_BE_sig)); try assumption;
    solve [ vm_compute; lia | reflexivity ].
Qed.

(** C8.  The big-endian signature spells out, without wildcards, the bytes
    at match offsets 2-3 ([00 2C]) and 6-7 ([80 00]), which are the bytes the
    resolver reads ([moduleDataPtrHi = 2], [moduleDataPtrLo = 6]).  So over
    every buffer, every value the big-endian scan reports is
    [0x2B8000 = (0x002C << 16) - 0x8000]. *)
Theorem ppc_scan_constant (data : list byte) (Hlen : len data <= MaxInt) :
  (ppc_moduleDataPtrHi PPC_BE_sig = 2 /\ ppc_moduleDataPtrLo PPC_BE_sig = 6)
  /\ (firstn 5 (skipn 6 (ppc_signature PPC_BE_sig))
        = list_byte_of_string "00 2C"%string
      /\ firstn 5 (skipn 18 (ppc_signature PPC_BE_sig))
        = list_byte_of_string "80 00"%string)
  /\ (forall m, In m (matchOffsets data (ppc_signature PPC_BE_sig)) ->
        be16At data (m + 2) = 0x002C /\ be16At data (m + 6) = 0x8000)
  /\ findPattern data (ppc_signature PPC_BE_sig) (ppc_resolve data)
     = Some (map (fun _ => {| moduleDataVA := 0x2B8000 |})
                 (matchOffsets data (ppc_signature PPC_BE_sig)))
  /\ 0x2B8000 = Z.shiftl 0x002C 16 - 0x8000.
Proof.
  assert (I : forall m, In m (matchOffsets data (ppc_signature PPC_BE_sig)) ->
                be16At data (m + 2) = 0x002C /\ be16At data (m + 6) = 0x8000).
  { intros m Hm. destruct (ppc_match_immediates data m Hm) as (B2 & B3 & B6 & B7).
    unfold be16At.
    replace (m + 2 + 1)%nat with (m + 3)%nat by lia.
    replace (m + 6 + 1)%nat with (m + 7)%nat by lia.
    rewrite B2, B3, B6, B7. split; reflexivity. }
  split; [split; reflexivity|]. split; [split; reflexivity|].
  split; [exact I|]. split; [|reflexivity].
  rewrite ppc_scan_result by assumption. f_equal.
  apply map_ext_in. intros m Hm. destruct (I m Hm) as [-> ->]. reflexivity.
Qed.

Lemma ppc_scan_constant_witness :
  len buf_ppc <= MaxInt
  /\ findPattern buf_ppc (ppc_signature PPC_BE_sig) (ppc_resolve buf_ppc)
     = Some (map (fun _ => {| moduleDataVA := 0x2B8000 |})
                 (matchOffsets buf_ppc (ppc_signature PPC_BE_sig))).
Proof.
  split; [vm_compute; discriminate|].
  apply (ppc_scan_constant buf_ppc). vm_compute; discriminate.
Defined.

(** ** Resolver reads *)

(** C9.  Each resolver reads inside the span of its pattern: 4 bytes at
    offset 3 of the 22-byte 64-bit pattern, 4 bytes at offset 2 of the 8-byte
    first 32-bit pattern, 2 bytes at each of offsets 2 and 6 of the 24-byte
    big-endian pattern.  As the scanner calls a resolver only where the whole
    pattern fits, every resolver call returns normally, and so does
    [findModuleInitPCHeader], on every buffer. *)
Theorem resolver_reads_in_bounds (data : list byte) (sectionBase : Z)
    (Hlen : len data <= MaxInt) :
  (x64_moduleDataPtrLoc x64sig + 4 <= getPatternSize (x64_signature x64sig)
   /\ getPatternSize (x64_signature x64sig) = 22)
  /\ (x86_moduleDataPtrLoc x86sig + 4
        <= getPatternSize (x86_moduleDataSignature x86sig)
      /\ getPatternSize (x86_moduleDataSignature x86sig) = 8)
  /\ (ppc_moduleDataPtrHi PPC_BE_sig + 2 <= getPatternSize (ppc_signature PPC_BE_sig)
      /\ ppc_moduleDataPtrLo PPC_BE_sig + 2 <= getPatternSize (ppc_signature PPC_BE_sig)
      /\ getPatternSize (ppc_signature PPC_BE_sig) = 24)
  /\ (forall m, In m (matchOffsets data (x64_signature x64sig)) ->
        exists r, x64_resolve data sectionBase (offsetU64 m) = Some r)
  /\ (forall m, In m (matchOffsets data (x86_moduleDataSignature x86sig)) ->
        exists r, x86_resolve data (offsetU64 m) = Some r)
  /\ (forall m, In m (matchOffsets data (ppc_signature PPC_BE_sig)) ->
        exists r, ppc_resolve data (offsetU64 m) = Some r)
  /\ exists r, findModuleInitPCHeader data sectionBase = Some r.
Proof.
  split; [split; [vm_compute; discriminate | reflexivity]|].
  split; [split; [vm_compute; discriminate | reflexivity]|].
  split; [split; [|split]; solve [vm_compute; discriminate | reflexivity]|].
  split; [|split; [|split]].
  - intros m Hm. pattern_fits Hm.
    eexists. apply x64_resolve_value; [assumption | lia].
  - intros m Hm. pattern_fits Hm.
    eexists. apply x86_resolve_value; [assumption | lia].
  - intros m Hm. pattern_fits Hm.
    eexists. apply ppc_resolve_value; [assumption | lia].
  - unfold findModuleInitPCHeader.
    rewrite (x64_scan_result data sectionBase Hlen),
            (x86_scan_result data Hlen), (ppc_scan_result data Hlen).
    cbn [Panic.bind]. eexists. reflexivity.
Qed.

Lemma resolver_reads_in_bounds_witness :
  len (buf_x86 49) <= MaxInt
  /\ exists r, findModuleInitPCHeader (buf_x86 49) 0 = Some r.
Proof.
  split; [vm_compute; discriminate|].
  apply (resolver_reads_in_bounds (buf_x86 49) 0). vm_compute; discriminate.
Defined.

(** ** Case of the hex letters *)

Lemma bv_of_N (c : byte) (v : Z) : bv c = v -> Byte.of_N (Z.to_N v) = Some c.
Proof. intros <-. unfold bv. rewrite N2Z.id. apply Byte.of_to_N. Qed.

Lemma caseVariant_reads (c c' : byte) :
  caseVariant c c' ->
  getBits c' = getBits c /\ Byte.eqb c' "?"%byte = Byte.eqb c "?"%byte.
Proof.
  intros [->|[Hl Hv]]; [split; reflexivity|].
  destruct c; vm_compute in Hl; try discriminate Hl;
    apply bv_of_N in Hv; vm_compute in Hv; injection Hv as <-;
    split; reflexivity.
Qed.

Lemma byteTest_caseVariant (c0 c1 c0' c1' d : byte) :
  caseVariant c0 c0' -> caseVariant c1 c1' ->
  byteTest c0' c1' d = byteTest c0 c1 d.
Proof.
  intros H0 H1.
  destruct (caseVariant_reads _ _ H0) as [G0 Q0].
  destruct (caseVariant_reads _ _ H1) as [G1 Q1].
  unfold byteTest. now rewrite G0, Q0, G1, Q1.
Qed.

Lemma caseVariant_nth (signature signature' : list byte) :
  Forall2 caseVariant signature signature' ->
  forall n, caseVariant (nth n signature x00) (nth n signature' x00).
Proof.
  induction 1 as [|c c' l l' Hc _ IH]; intros n.
  - destruct n; now left.
  - destruct n as [|n]; [exact Hc | apply IH].
Qed.

Lemma caseVariant_patternBytes (signature signature' : list byte) :
  Forall2 caseVariant signature signature' ->
  patternBytes signature' = patternBytes signature.
Proof.
  intros H. unfold patternBytes, getPatternSize, len.
  now rewrite (Forall2_length H).
Qed.

(** C10.  [getBits] clears bit 5 before subtracting ['A'], so [a-f] decode
    like [A-F]; hence for every buffer, pattern text and callback, changing the
    case of any of the pattern's hex letters leaves what [findPattern] returns
    unchanged. *)
Theorem hex_case_insensitive (data signature signature' : list byte)
    (f : Z -> option (list SignatureMatch))
    (Hcase : Forall2 caseVariant signature signature') :
  map getBits (list_byte_of_string "abcdef"%string)
  = map getBits (list_byte_of_string "ABCDEF"%string)
  /\ map getBits signature' = map getBits signature
  /\ findPattern data signature' f = findPattern data signature f.
Proof.
  split; [reflexivity|]. split.
  - induction Hcase as [|c c' l l' Hc _ IH]; [reflexivity|].
    cbn [map]. rewrite IH. f_equal. now apply caseVariant_reads.
  - rewrite !findPattern_flatMapM. do 2 f_equal. apply filter_ext. intros i.
    unfold loopCompletesAt. rewrite (caseVariant_patternBytes _ _ Hcase).
    apply forallb_in_ext. intros k _. f_equal.
    apply byteTest_caseVariant; now apply caseVariant_nth.
Qed.

Lemma hex_case_insensitive_witness :
  Forall2 caseVariant (list_byte_of_string "8D ?C 0f"%string)
                      (list_byte_of_string "8d ?c 0F"%string)
  /\ findPattern [x8d; x1c; x0f] (list_byte_of_string "8d ?c 0F"%string) report
     = findPattern [x8d; x1c; x0f] (list_byte_of_string "8D ?C 0f"%string) report.
Proof.
  assert (H : Forall2 caseVariant (list_byte_of_string "8D ?C 0f"%string)
                                  (list_byte_of_string "8d ?c 0F"%string)).
  { repeat (constructor;
            [first [left; reflexivity | right; split; reflexivity]|]).
    constructor. }
  split; [exact H|].
  apply (hex_case_insensitive [x8d; x1c; x0f] _ _ report H).
Defined.

(** * Further properties *)

(** ** What [getBits] accepts *)

Lemma getBitsCheck_all : forallb getBitsCheck allBytes = true.
Proof. vm_compute. reflexivity. Qed.

(** X1.  [getBits] yields a nibble (a value below 16) exactly on [0-9], [A-F],
    [a-f] and on the two characters ['@'] and ['`'], which both decode to 9;
    on the hex digits the nibble is the digit's value, whatever the case of
    a letter. *)
Theorem getBits_nibble_characters (c : byte) :
  (getBits c < 16
   <-> (isDigit c || isUpperHexLetter c || isLowerHexLetter c
        || Byte.eqb c "@"%byte || Byte.eqb c "`"%byte) = true)
  /\ (isDigit c = true -> getBits c = bv c - bv "0"%byte)
  /\ (isUpperHexLetter c = true -> getBits c = bv c - bv "A"%byte + 10)
  /\ (isLowerHexLetter c = true -> getBits c = bv c - bv "a"%byte + 10)
  /\ (c = "@"%byte \/ c = "`"%byte -> getBits c = 9).
Proof.
  pose proof (forallb_allBytes getBitsCheck getBitsCheck_all c) as H.
  unfold getBitsCheck in H. rewrite !andb_true_iff in H.
  destruct H as ((((H1 & H2) & H3) & H4) & H5).
  apply eqb_prop in H1.
  split; [|split; [|split; [|split]]].
  - rewrite <- H1. symmetry. apply Z.ltb_lt.
  - intros E. rewrite E in H2. now apply Z.eqb_eq.
  - intros E. rewrite E in H3. now apply Z.eqb_eq.
  - intros E. rewrite E in H4. now apply Z.eqb_eq.
  - intros [-> | ->]; reflexivity.
Qed.

(** ** Which characters of the pattern text are read *)

Lemma loopCompletesAt_nibbles (data signature signature' : list byte) (i : nat) :
  patternBytes signature' = patternBytes signature ->
  (forall k, (k < patternBytes signature)%nat ->
     nth (3 * k) signature' x00 = nth (3 * k) signature x00
     /\ nth (3 * k + 1) signature' x00 = nth (3 * k + 1) signature x00) ->
  loopCompletesAt data signature' i = loopCompletesAt data signature i.
Proof.
  intros Hb Hn. unfold loopCompletesAt. rewrite Hb.
  apply forallb_in_ext. intros k Hk. apply in_seq in Hk.
  destruct (Hn k) as [-> ->]; [lia | reflexivity].
Qed.

(** X2.  [findPattern] reads only the two nibble characters of each of the
    [getPatternSize] pattern bytes: two texts with the same [getPatternSize]
    that agree on those characters give the same result, whatever stands at
    the separator positions or after the last complete byte. *)
Theorem findPattern_reads_nibbles_only (data signature signature' : list byte)
    (f : Z -> option (list SignatureMatch))
    (Hsize : getPatternSize signature' = getPatternSize signature)
    (Hnib : forall k, 0 <= k < getPatternSize signature ->
              index signature' (3 * k) = index signature (3 * k)
              /\ index signature' (3 * k + 1) = index signature (3 * k + 1)) :
  findPattern data signature' f = findPattern data signature f.
Proof.
  assert (Hb : patternBytes signature' = patternBytes signature)
    by (unfold patternBytes; now rewrite Hsize).
  rewrite !findPattern_flatMapM. do 2 f_equal. apply filter_ext. intros i.
  apply loopCompletesAt_nibbles; [assumption|].
  intros k Hk.
  pose proof (patternBytes_bound signature) as B.
  pose proof (patternBytes_bound signature') as B'. rewrite Hb in B'.
  destruct (Hnib (Z.of_nat k)) as [E0 E1];
    [rewrite getPatternSize_nat; lia|].
  replace (3 * Z.of_nat k) with (Z.of_nat (3 * k)) in * by lia.
  replace (Z.of_nat (3 * k) + 1) with (Z.of_nat (3 * k + 1)) in * by lia.
  rewrite (index_nth signature' _ x00), (index_nth signature _ x00) in E0 by lia.
  rewrite (index_nth signature' _ x00), (index_nth signature _ x00) in E1 by lia.
  split; congruence.
Qed.

Lemma findPattern_reads_nibbles_only_witness :
  findPattern [xaa; xbb; xaa; xbb] (list_byte_of_string "AA-BB C"%string) report
  = findPattern [xaa; xbb; xaa; xbb] (list_byte_of_string "AA BB"%string) report.
Proof.
  apply findPattern_reads_nibbles_only; [reflexivity|].
  intros k Hk. change (getPatternSize _) with 2 in Hk.
  assert (E : k = 0 \/ k = 1) by lia.
  destruct E as [-> | ->]; split; reflexivity.
Defined.

(** ** The degenerate pattern *)

(** X3.  A pattern text of at most one character has [getPatternSize] 0, and then
    the scan calls the callback at every offset of the buffer, in order. *)
Theorem findPattern_empty_pattern (data signature : list byte)
    (f : Z -> option (list SignatureMatch))
    (Hshort : len signature <= 1) :
  getPatternSize signature = 0
  /\ findPattern data signature f
     = flatMapM f (map offsetU64 (seq 0 (length data))).
Proof.
  assert (Hz : getPatternSize signature = 0).
  { unfold getPatternSize. pose proof (len_nonneg signature).
    apply Z.div_small. lia. }
  split; [exact Hz|].
  rewrite findPattern_flatMapM. do 2 f_equal.
  apply forallb_filter_id, forallb_forall. intros i _.
  unfold loopCompletesAt, patternBytes. rewrite Hz. reflexivity.
Qed.

Lemma findPattern_empty_pattern_witness :
  findPattern [x01; x02; x03] (list_byte_of_string "A"%string) report
  = flatMapM report (map offsetU64 (seq 0 3)).
Proof.
  apply (findPattern_empty_pattern [x01; x02; x03] (list_byte_of_string "A"%string)).
  vm_compute; discriminate.
Defined.

(** ** Locality of a match *)

Lemma scanOffsets_calls (data signature : list byte)
    (f : Z -> option (list SignatureMatch)) :
  findPattern data signature f
  = flatMapM f (map offsetU64 (scanOffsets data signature)).
Proof. apply findPattern_flatMapM. Qed.

Lemma loopCompletesAt_skipn (data signature : list byte) (n i : nat) :
  loopCompletesAt (skipn n data) signature i
  = loopCompletesAt data signature (n + i).
Proof.
  unfold loopCompletesAt. apply forallb_in_ext. intros k _.
  rewrite nth_skipn, length_skipn, !Nat.add_assoc. f_equal.
  destruct (Nat.ltb_spec (i + k) (length data - n)),
           (Nat.ltb_spec (n + i + k) (length data)); (reflexivity || lia).
Qed.

Lemma loopCompletesAt_app (data rest signature : list byte) (i : nat) :
  (i + patternBytes signature <= length data)%nat ->
  loopCompletesAt (data ++ rest) signature i = loopCompletesAt data signature i.
Proof.
  intros H. unfold loopCompletesAt. apply forallb_in_ext. intros k Hk.
  apply in_seq in Hk. rewrite length_app, app_nth1 by lia. f_equal.
  destruct (Nat.ltb_spec (i + k) (length data + length rest)),
           (Nat.ltb_spec (i + k) (length data)); (reflexivity || lia).
Qed.

Lemma seq_from (n k : nat) : seq n k = map (Nat.add n) (seq 0 k).
Proof.
  revert n. induction k as [|k IH]; intros n; [reflexivity|].
  cbn [seq map]. rewrite Nat.add_0_r. f_equal.
  rewrite (IH (S n)), (IH 1%nat), map_map. apply map_ext. intros j. lia.
Qed.

Lemma filter_none {A} (p : A -> bool) (l : list A) :
  (forall x, In x l -> p x = false) -> filter p l = [].
Proof.
  induction l as [|a l IH]; intros H; [reflexivity|]. cbn.
  rewrite (H a) by now left. apply IH. intros x Hx. apply H. now right.
Qed.

Lemma filter_all {A} (p : A -> bool) (l : list A) :
  (forall x, In x l -> p x = true) -> filter p l = l.
Proof. intros H. now apply forallb_filter_id, forallb_forall. Qed.

Lemma scanOffsets_skipn (data signature : list byte) (n : nat) :
  (n <= length data)%nat ->
  scanOffsets (skipn n data) signature
  = map (fun j => (j - n)%nat)
        (filter (fun j => (n <=? j)%nat) (scanOffsets data signature)).
Proof.
  intros Hn. unfold scanOffsets. rewrite length_skipn.
  replace (length data) with (n + (length data - n))%nat at 2 by lia.
  rewrite seq_app, !filter_app. cbn [Nat.add].
  rewrite (filter_none (fun j => (n <=? j)%nat) (filter _ (seq 0 n)))
    by (intros j Hj; apply filter_In in Hj as [Hj _]; apply in_seq in Hj;
        apply Nat.leb_gt; lia).
  rewrite (filter_all (fun j => (n <=? j)%nat) (filter _ (seq n _)))
    by (intros j Hj; apply filter_In in Hj as [Hj _]; apply in_seq in Hj;
        apply Nat.leb_le; lia).
  cbn [app]. rewrite (seq_from n), filter_map_swap, map_map.
  rewrite <- (map_id (filter _ (seq 0 _))) at 1.
  rewrite (map_ext (fun j => (n + j - n)%nat) (fun j => j)) by (intros; lia).
  f_equal. apply filter_ext. intros i. apply loopCompletesAt_skipn.
Qed.

(** X4.  Scanning the sub-slice [data[n:]] finds exactly the matches of [data]
    that start at or after [n], reported relative to [n] and in the same
    order. *)
Theorem findPattern_sub_slice (data signature : list byte) (n : nat)
    (f : Z -> option (list SignatureMatch))
    (Hn : (n <= length data)%nat) :
  scanOffsets (skipn n data) signature
  = map (fun j => (j - n)%nat)
        (filter (fun j => (n <=? j)%nat) (scanOffsets data signature))
  /\ findPattern (skipn n data) signature f
     = flatMapM f (map (fun j => offsetU64 (j - n))
                       (filter (fun j => (n <=? j)%nat)
                               (scanOffsets data signature))).
Proof.
  pose proof (scanOffsets_skipn data signature n Hn) as E.
  split; [exact E|].
  rewrite scanOffsets_calls, E, map_map. reflexivity.
Qed.

Lemma findPattern_sub_slice_witness :
  scanOffsets (skipn 1 [xaa; xaa; xaa; xaa]) (list_byte_of_string "AA AA"%string)
  = map (fun j => (j - 1)%nat)
        (filter (fun j => (1 <=? j)%nat)
                (scanOffsets [xaa; xaa; xaa; xaa]
                             (list_byte_of_string "AA AA"%string))).
Proof.
  apply (findPattern_sub_slice [xaa; xaa; xaa; xaa]
           (list_byte_of_string "AA AA"%string) 1 report).
  cbn; lia.
Defined.

(** X5.  Appending bytes to the buffer keeps every match and its place in the
    order: the longer scan first makes the calls of the shorter one, then
    only calls at offsets whose pattern window reaches beyond the old end. *)
Theorem findPattern_append (data rest signature : list byte) :
  exists later : list nat,
    scanOffsets (data ++ rest) signature = scanOffsets data signature ++ later
    /\ Forall (fun i => (length data - (patternBytes signature - 1) <= i)%nat) later
    /\ forall g : Z -> list SignatureMatch,
         findPattern (data ++ rest) signature (fun i => Some (g i))
         = Some (flat_map g (map offsetU64 (scanOffsets data signature))
                 ++ flat_map g (map offsetU64 later)).
Proof.
  set (b := patternBytes signature).
  set (s := (length data - (b - 1))%nat).
  exists (filter (loopCompletesAt (data ++ rest) signature)
                 (seq s (length (data ++ rest) - s))).
  assert (E : scanOffsets (data ++ rest) signature
              = scanOffsets data signature
                ++ filter (loopCompletesAt (data ++ rest) signature)
                          (seq s (length (data ++ rest) - s))).
  { unfold scanOffsets.
    assert (Hs : (s <= length data)%nat) by (unfold s; lia).
    replace (length (data ++ rest)) with (s + (length (data ++ rest) - s))%nat at 1
      by (rewrite length_app; lia).
    rewrite seq_app, filter_app. cbn [Nat.add]. f_equal.
    replace (seq 0 (length data)) with (seq 0 s ++ seq s (length data - s))
      by (rewrite <- seq_app; f_equal; lia).
    rewrite filter_app, (filter_none _ (seq s (length data - s))).
    - rewrite app_nil_r. apply filter_ext_in. intros i Hi.
      apply in_seq in Hi. apply loopCompletesAt_app. fold b. unfold s in Hi. lia.
    - intros i Hi. apply in_seq in Hi. apply not_true_is_false. intros C.
      apply loopCompletesAt_fit in C; [|lia]. fold b in C. unfold s in Hi. lia. }
  split; [exact E|]. split.
  - apply Forall_forall. intros i Hi. apply filter_In in Hi as [Hi _].
    apply in_seq in Hi. lia.
  - intros g. rewrite scanOffsets_calls, flatMapM_pure, E, map_app, flat_map_app.
    reflexivity.
Qed.

(** ** The 32-bit scan in absolute offsets *)

Lemma scanOffsets_matchOffsets (data signature : list byte) :
  wf_pattern signature = true ->
  scanOffsets data signature = matchOffsets data signature.
Proof.
  intros Hwf. apply filter_ext. intros i. now apply loopCompletesAt_matchesAt.
Qed.

Lemma flat_map_ext_in {A B} (f g : A -> list B) (l : list A) :
  (forall x, In x l -> f x = g x) -> flat_map f l = flat_map g l.
Proof.
  induction l as [|a l IH]; intros H; [reflexivity|]. cbn.
  rewrite (H a) by now left. f_equal. apply IH. intros x Hx. apply H. now right.
Qed.

Lemma window_flat_map (p : SignatureMatch) (m : nat) (L : list nat) :
  flat_map (fun m2 => if Z.of_nat m2 <? 50 then [p] else [])
           (map (fun j => (j - m)%nat) (filter (fun j => (m <=? j)%nat) L))
  = map (fun _ => p)
        (filter (fun j => (m <=? j)%nat && (j <? m + 50)%nat) L).
Proof.
  induction L as [|a L IH]; [reflexivity|]. cbn [filter].
  destruct (Nat.leb_spec m a) as [Hle|Hgt]; cbn [andb map flat_map]; [|exact IH].
  rewrite IH.
  destruct (Nat.ltb_spec a (m + 50)), (Z.ltb_spec (Z.of_nat (a - m)) 50);
    (reflexivity || lia).
Qed.

Lemma x86_resolve_window (data : list byte) (m : nat) :
  len data <= MaxInt -> (m + 6 <= length data)%nat ->
  x86_resolve data (offsetU64 m)
  = Some (map (fun _ => {| moduleDataVA := le32At data (m + 2) |})
              (filter (fun j => (m <=? j)%nat && (j <? m + 50)%nat)
                      (matchOffsets data (x86_loopSignature x86sig)))).
Proof.
  intros Hlen Hm. rewrite x86_resolve_value by assumption. f_equal.
  rewrite <- !scanOffsets_matchOffsets by reflexivity.
  rewrite scanOffsets_skipn by lia. apply window_flat_map.
Qed.

(** X6.  For a first-stage match at [m], the 32-bit scan emits the pointer stored
    at [m + 2] once for every occurrence of the loop idiom that starts at an
    absolute offset [j] with [m <= j < m + 50]: several occurrences in the
    window repeat the value, none gives nothing. *)
Theorem x86_window (data : list byte) (Hlen : len data <= MaxInt) :
  findPattern data (x86_moduleDataSignature x86sig) (x86_resolve data)
  = Some (flat_map
            (fun m =>
               map (fun _ => {| moduleDataVA := le32At data (m + 2) |})
                   (filter (fun j => (m <=? j)%nat && (j <? m + 50)%nat)
                           (matchOffsets data (x86_loopSignature x86sig))))
            (matchOffsets data (x86_moduleDataSignature x86sig))).
Proof.
  rewrite findPattern_matchOffsets by reflexivity.
  apply flatMapM_total. intros m Hm. pattern_fits Hm.
  apply x86_resolve_window; [assumption | lia].
Qed.

Lemma x86_window_witness :
  findPattern (buf_x86 20 ++ skipn 8 (buf_x86 20))
              (x86_moduleDataSignature x86sig)
              (x86_resolve (buf_x86 20 ++ skipn 8 (buf_x86 20)))
  = Some [ {| moduleDataVA := 0x006A4960 |}; {| moduleDataVA := 0x006A4960 |} ].
Proof.
  rewrite (x86_window (buf_x86 20 ++ skipn 8 (buf_x86 20)));
    [reflexivity | vm_compute; discriminate].
Defined.

(** ** The section base *)

Lemma collector_result (data : list byte) (sectionBase : Z) :
  len data <= MaxInt ->
  findModuleInitPCHeader data sectionBase
  = Some (map (fun m =>
                 {| moduleDataVA :=
                      uint64 (le32At data (m + 3) + (Z.of_nat m + 7) + sectionBase) |})
              (matchOffsets data (x64_signature x64sig))
          ++ flat_map
               (fun m =>
                  flat_map (fun m2 => if Z.of_nat m2 <? 50
                                      then [ {| moduleDataVA := le32At data (m + 2) |} ]
                                      else [])
                           (matchOffsets (skipn m data) (x86_loopSignature x86sig)))
               (matchOffsets data (x86_moduleDataSignature x86sig))
          ++ map (fun m =>
                    {| moduleDataVA :=
                         uint64 (2 ^ 16 * be16At data (m + 2)
                                 + signed 16 (be16At data (m + 6))) |})
                 (matchOffsets data (ppc_signature PPC_BE_sig))).
Proof.
  intros Hlen. unfold findModuleInitPCHeader.
  rewrite (x64_scan_result data sectionBase Hlen),
          (x86_scan_result data Hlen), (ppc_scan_result data Hlen).
  cbn [Panic.bind]. cbv zeta. now rewrite app_nil_l, app_assoc.
Qed.

(** X7.  Only the 64-bit results depend on the section base, and they move with
    it: the output for base [sectionBase] is the output for base 0 with
    [sectionBase] added, modulo [2^64], to the leading 64-bit results; the
    32-bit and big-endian results stay as they are. *)
Theorem section_base_translation (data : list byte) (sectionBase : Z)
    (Hlen : len data <= MaxInt) :
  exists r64 r86 rppc,
    findPattern data (x64_signature x64sig) (x64_resolve data 0) = Some r64
    /\ findModuleInitPCHeader data 0 = Some (r64 ++ r86 ++ rppc)
    /\ findModuleInitPCHeader data sectionBase
       = Some (map (rebase sectionBase) r64 ++ r86 ++ rppc).
Proof.
  eexists _, _, _. split; [apply x64_scan_result, Hlen|].
  split; [apply collector_result, Hlen|].
  rewrite collector_result by assumption. do 2 f_equal.
  rewrite map_map. apply map_ext. intros m. unfold rebase. cbn [moduleDataVA].
  f_equal. rewrite Z.add_0_r. unfold uint64.
  now rewrite Z.add_mod_idemp_l by lia.
Qed.

Lemma section_base_translation_witness :
  exists r64 r86 rppc,
    findPattern (buf_x64 ++ buf_ppc) (x64_signature x64sig)
                (x64_resolve (buf_x64 ++ buf_ppc) 0) = Some r64
    /\ findModuleInitPCHeader (buf_x64 ++ buf_ppc) 0 = Some (r64 ++ r86 ++ rppc)
    /\ findModuleInitPCHeader (buf_x64 ++ buf_ppc) 0x00400000
       = Some (map (rebase 0x00400000) r64 ++ r86 ++ rppc).
Proof.
  apply (section_base_translation (buf_x64 ++ buf_ppc) 0x00400000).
  vm_compute; discriminate.
Defined.

(** ** The three first-stage patterns exclude one another *)

Lemma matched_high_nibble (data signature : list byte) (m k : nat) (v : Z) :
  In m (matchOffsets data signature) ->
  (k < patternBytes signature)%nat ->
  isWildcard (nth (3 * k) signature x00) = false ->
  hexValue (nth (3 * k) signature x00) = v ->
  bv (nth (m + k) data x00) / 16 = v.
Proof.
  intros Hm Hk W0 <-.
  apply matchOffsets_In in Hm as [_ Hm]. unfold matchesAt in Hm.
  apply andb_true_iff in Hm as [_ Hm]. rewrite forallb_forall in Hm.
  specialize (Hm k). rewrite in_seq in Hm.
  unfold byteMatches, nibbleMatches in Hm. rewrite W0 in Hm. cbn [orb] in Hm.
  apply andb_true_iff in Hm as [Hm _]; [|lia]. apply Z.eqb_eq in Hm. now symmetry.
Qed.

(** X8.  No offset of a buffer starts a match of two different first-stage
    patterns: the 64-bit, the 32-bit and the big-endian signature differ in a
    fixed nibble of their first two bytes. *)
Theorem first_stage_patterns_disjoint (data : list byte) (m : nat) :
  ~ (In m (matchOffsets data (x64_signature x64sig))
     /\ In m (matchOffsets data (x86_moduleDataSignature x86sig)))
  /\ ~ (In m (matchOffsets data (x64_signature x64sig))
        /\ In m (matchOffsets data (ppc_signature PPC_BE_sig)))
  /\ ~ (In m (matchOffsets data (x86_moduleDataSignature x86sig))
        /\ In m (matchOffsets data (ppc_signature PPC_BE_sig))).
Proof.
  split; [|split]; intros [H1 H2].
  - assert (A : bv (nth (m + 0) data x00) = 0x48)
      by (apply (matched_literal_byte data (x64_signature x64sig));
          solve [assumption | vm_compute; lia | reflexivity]).
    assert (B : bv (nth (m + 0) data x00) = 0x8D)
      by (apply (matched_literal_byte data (x86_moduleDataSignature x86sig));
          solve [assumption | vm_compute; lia | reflexivity]).
    lia.
  - assert (A : bv (nth (m + 1) data x00) = 0x8D)
      by (apply (matched_literal_byte data (x64_signature x64sig));
          solve [assumption | vm_compute; lia | reflexivity]).
    assert (B : bv (nth (m + 1) data x00) = 0x80)
      by (apply (matched_literal_byte data (ppc_signature PPC_BE_sig));
          solve [assumption | vm_compute; lia | reflexivity]).
    lia.
  - assert (A : bv (nth (m + 0) data x00) = 0x8D)
      by (apply (matched_literal_byte data (x86_moduleDataSignature x86sig));
          solve [assumption | vm_compute; lia | reflexivity]).
    assert (B : bv (nth (m + 0) data x00) / 16 = 3)
      by (apply (matched_high_nibble data (ppc_signature PPC_BE_sig));
          solve [assumption | vm_compute; lia | reflexivity]).
    rewrite A in B. discriminate B.
Qed.

(** ** Short buffers *)

Lemma matchOffsets_short (data signature : list byte) :
  (length data < patternBytes signature)%nat -> matchOffsets data signature = [].
Proof.
  intros H. destruct (matchOffsets data signature) as [|m l] eqn:E; [reflexivity|].
  assert (Hm : In m (matchOffsets data signature)) by (rewrite E; now left).
  apply matchOffsets_fit in Hm. lia.
Qed.

Lemma x86_loop_not_within_two (data : list byte) (m : nat) :
  In m (matchOffsets data (x86_moduleDataSignature x86sig)) ->
  forall m2, In m2 (matchOffsets (skipn m data) (x86_loopSignature x86sig)) ->
  (2 <= m2)%nat.
Proof.
  intros Hm m2 H2.
  assert (A0 : bv (nth (m + 0) data x00) = 0x8D)
    by (apply (matched_literal_byte data (x86_moduleDataSignature x86sig));
        solve [assumption | vm_compute; lia | reflexivity]).
  assert (A7 : bv (nth (m + 7) data x00) = 0x1A)
    by (apply (matched_literal_byte data (x86_moduleDataSignature x86sig));
        solve [assumption | vm_compute; lia | reflexivity]).
  assert (B0 : bv (nth (m2 + 0) (skipn m data) x00) = 0x8B)
    by (apply (matched_literal_byte _ (x86_loopSignature x86sig));
        solve [assumption | vm_compute; lia | reflexivity]).
  assert (B6 : bv (nth (m2 + 6) (skipn m data) x00) = 0x8B)
    by (apply (matched_literal_byte _ (x86_loopSignature x86sig));
        solve [assumption | vm_compute; lia | reflexivity]).
  rewrite nth_skipn in B0, B6.
  destruct m2 as [|[|m2]]; [| |lia]; exfalso.
  - replace (m + (0 + 0))%nat with (m + 0)%nat in B0 by lia. lia.
  - replace (m + (1 + 6))%nat with (m + 7)%nat in B6 by lia. lia.
Qed.

(** X9.  On a buffer of fewer than 16 bytes [findModuleInitPCHeader] reports
    nothing, whatever the bytes and the section base; 16 bytes can be enough:
    the loop idiom of the 32-bit signature cannot start less than 2 bytes
    after the pointer load, and may start exactly there. *)
Theorem short_buffer_no_result (data : list byte) (sectionBase : Z)
    (Hshort : (length data < 16)%nat) :
  findModuleInitPCHeader data sectionBase = Some []
  /\ (length buf_x86_min = 16%nat
      /\ findModuleInitPCHeader buf_x86_min sectionBase
         = Some [ {| moduleDataVA := 0x006A498B |} ]).
Proof.
  split; [|split; reflexivity].
  rewrite collector_result by (unfold len, MaxInt; lia).
  rewrite (matchOffsets_short data (x64_signature x64sig))
    by (change (patternBytes (x64_signature x64sig)) with 22%nat; lia).
  rewrite (matchOffsets_short data (ppc_signature PPC_BE_sig))
    by (change (patternBytes (ppc_signature PPC_BE_sig)) with 24%nat; lia).
  cbn [map app]. rewrite app_nil_r.
  rewrite (flat_map_ext_in _ (fun _ => [])).
  - f_equal. induction (matchOffsets data _); [reflexivity | assumption].
  - intros m Hm.
    destruct (matchOffsets (skipn m data) (x86_loopSignature x86sig))
      as [|m2 l] eqn:E; [reflexivity|exfalso].
    assert (H2 : In m2 (matchOffsets (skipn m data) (x86_loopSignature x86sig)))
      by (rewrite E; now left).
    pose proof (x86_loop_not_within_two data m Hm m2 H2) as Hfar.
    apply matchOffsets_fit in H2. rewrite length_skipn in H2.
    change (patternBytes (x86_loopSignature x86sig)) with 14%nat in H2.
    pattern_fits Hm. lia.
Qed.

Lemma short_buffer_no_result_witness :
  findModuleInitPCHeader (firstn 15 buf_x86_min) 0 = Some [].
Proof.
  apply (short_buffer_no_result (firstn 15 buf_x86_min) 0). cbn; lia.
Defined.

(** ** Ranges of the reported values *)

Lemma Forall_flat_map {A B} (P : B -> Prop) (f : A -> list B) (l : list A) :
  (forall x, In x l -> Forall P (f x)) -> Forall P (flat_map f l).
Proof.
  induction l as [|a l IH]; intros H; [constructor|]. cbn.
  apply Forall_app. split; [apply H; now left|].
  apply IH. intros x Hx. apply H. now right.
Qed.

Lemma x86_values_32bit (data : list byte) :
  Forall (fun x => 0 <= moduleDataVA x < 2 ^ 32)
    (flat_map
       (fun m =>
          flat_map (fun m2 => if Z.of_nat m2 <? 50
                              then [ {| moduleDataVA := le32At data (m + 2) |} ]
                              else [])
                   (matchOffsets (skipn m data) (x86_loopSignature x86sig)))
       (matchOffsets data (x86_moduleDataSignature x86sig))).
Proof.
  apply Forall_flat_map. intros m _. apply Forall_flat_map. intros m2 _.
  destruct (Z.of_nat m2 <? 50); constructor; [|constructor].
  apply le32At_range.
Qed.

(** X10.  Every value [findModuleInitPCHeader] reports fits in 64 bits, and the
    values of the 32-bit scan fit in 32 bits: the additions of the 64-bit
    resolver wrap around and the big-endian sum is reduced on conversion. *)
Theorem reported_values_ranges (data : list byte) (sectionBase : Z)
    (Hlen : len data <= MaxInt) :
  (exists r, findModuleInitPCHeader data sectionBase = Some r
             /\ Forall (fun x => 0 <= moduleDataVA x < 2 ^ 64) r)
  /\ (exists r86,
        findPattern data (x86_moduleDataSignature x86sig) (x86_resolve data)
        = Some r86
        /\ Forall (fun x => 0 <= moduleDataVA x < 2 ^ 32) r86).
Proof.
  split.
  - eexists. split; [apply collector_result, Hlen|].
    rewrite !Forall_app. repeat split.
    + apply Forall_forall. intros x Hx. apply in_map_iff in Hx as (m & <- & _).
      cbn [moduleDataVA]. apply Z.mod_pos_bound. lia.
    + eapply Forall_impl; [|apply x86_values_32bit].
      cbv beta. intros x Hx. lia.
    + apply Forall_forall. intros x Hx. apply in_map_iff in Hx as (m & <- & _).
      cbn [moduleDataVA]. apply Z.mod_pos_bound. lia.
  - eexists. split; [apply x86_scan_result, Hlen|]. apply x86_values_32bit.
Qed.

Lemma reported_values_ranges_witness :
  exists r, findModuleInitPCHeader buf_x64_high 0x00400000 = Some r
            /\ Forall (fun x => 0 <= moduleDataVA x < 2 ^ 64) r.
Proof.
  apply (reported_values_ranges buf_x64_high 0x00400000). vm_compute; discriminate.
Defined.
